(** * A shallow embedding of the restaurant RAG chatbot

    The development follows the three modules of [src/rag]:
    [retriever.py] (class [DocumentRetriever]), [generator.py] (class
    [ResponseGenerator]) and [rag_chatbot.py] (class [RAGChatbot]), and the
    builder of the knowledge base that the retriever loads,
    [knowledge_base/build_kb.py] (class [KnowledgeBaseBuilder]).

    Modelling conventions.
    - Python [str] is [string]; the text is taken to be ASCII, so that
      [str.lower] only moves the letters [A-Z] and the whitespace of
      [str.split], [str.strip] and the regex class [\s] is the ASCII part of
      Python's whitespace (codes 9-13, 28-31 and 32).
    - A metadata dictionary is a [gmap string string] (the data model has
      [mapping<string,string>]); [d[k]] on a missing key raises [KeyError].
    - Exceptions are values of [exn]; a method that may raise returns a
      [result].
    - Floats are rationals: a score is compared, negated and printed nowhere
      else, and these operations are exact on finite floats.
    - The embedding model and the text-generation pipeline are fields of the
      retriever and the generator: opaque functions supplied by the caller. *)

From Stdlib Require Import QArith Lqa Ascii String.
From stdpp Require Import base option list sorting gmap strings pretty.

Local Open Scope string_scope.
Local Open Scope list_scope.
Local Open Scope nat_scope.

(** ** Python strings *)

Module Py.

Definition code (c : ascii) : N := N_of_ascii c.

(** [c.isspace()] on ASCII. *)
Definition isspace (c : ascii) : bool :=
  let n := code c in
  ((9 <=? n) && (n <=? 13) || (28 <=? n) && (n <=? 32))%N.

Definition isupper (c : ascii) : bool :=
  let n := code c in ((65 <=? n) && (n <=? 90))%N.

Definition islower (c : ascii) : bool :=
  let n := code c in ((97 <=? n) && (n <=? 122))%N.

(** The regex class [[a-zA-Z\s]]. *)
Definition isalpha_or_space (c : ascii) : bool :=
  isupper c || islower c || isspace c.

Definition lower_char (c : ascii) : ascii :=
  if isupper c then ascii_of_N (code c + 32) else c.

Definition upper_char (c : ascii) : ascii :=
  if islower c then ascii_of_N (code c - 32) else c.

Fixpoint smap (f : ascii -> ascii) (s : string) : string :=
  match s with
  | EmptyString => EmptyString
  | String c s' => String (f c) (smap f s')
  end.

(** [s.lower()] *)
Definition lower (s : string) : string := smap lower_char s.

(** [s.capitalize()]: first character upper-cased, the rest lower-cased. *)
Definition capitalize (s : string) : string :=
  match s with
  | EmptyString => EmptyString
  | String c s' => String (upper_char c) (lower s')
  end.

(** [s.startswith(p)] *)
Fixpoint startswith (p s : string) : bool :=
  match p, s with
  | EmptyString, _ => true
  | String a p', String b s' => if Ascii.eqb a b then startswith p' s' else false
  | String _ _, EmptyString => false
  end.

(** [needle in hay] *)
Fixpoint contains (needle hay : string) : bool :=
  startswith needle hay ||
  match hay with
  | EmptyString => false
  | String _ hay' => contains needle hay'
  end.

(** [s.lstrip()], [s.rstrip()], [s.strip()] *)
Fixpoint lstrip (s : string) : string :=
  match s with
  | String c s' => if isspace c then lstrip s' else s
  | EmptyString => EmptyString
  end.

Fixpoint rstrip (s : string) : string :=
  match s with
  | EmptyString => EmptyString
  | String c s' =>
      match rstrip s' with
      | EmptyString => if isspace c then EmptyString else String c EmptyString
      | t => String c t
      end
  end.

Definition strip (s : string) : string := rstrip (lstrip s).

(** [s.split()]: the maximal runs of non-whitespace characters. [w] is the
    word being read, reversed. *)
Fixpoint split_aux (w : list ascii) (s : string) : list string :=
  let flush := match w with [] => [] | _ => [string_of_list_ascii (rev w)] end in
  match s with
  | EmptyString => flush
  | String c s' =>
      if isspace c then flush ++ split_aux [] s' else split_aux (c :: w) s'
  end.

Definition split (s : string) : list string := split_aux [] s.

(** [sep.join(parts)] *)
Fixpoint join (sep : string) (parts : list string) : string :=
  match parts with
  | [] => ""
  | [p] => p
  | p :: ps => p +:+ sep +:+ join sep ps
  end.

(** [bool(s)] for a string: non-empty. *)
Definition truthy (s : string) : bool :=
  match s with EmptyString => false | _ => true end.

(** [a < b] on strings: lexicographic on character codes. *)
Definition str_lt (a b : string) : bool := String.ltb a b.

Definition nl : string := String (ascii_of_N 10) EmptyString.

(** [a < b] and [a == b] on floats. *)
Definition float_lt (a b : Q) : bool := Qle_bool a b && negb (Qeq_bool a b).
Definition float_eq (a b : Q) : bool := Qeq_bool a b.

End Py.

(** ** Exceptions *)

Inductive exn : Type :=
  | KeyError (key : string)
  | IndexError
  | AssertionError
  | UpstreamFailure (msg : string).

Inductive result (A : Type) : Type :=
  | Ok (a : A)
  | Raise (e : exn).
Arguments Ok {A} a.
Arguments Raise {A} e.

#[global] Instance result_ret : MRet result := fun A a => Ok a.
#[global] Instance result_bind : MBind result := fun A B f m =>
  match m with
  | Ok a => f a
  | Raise e => Raise e
  end.

Definition is_ok {A} (r : result A) : bool :=
  match r with Ok _ => true | Raise _ => false end.

(** [d[k]] on a dictionary. *)
Definition getitem {V} (d : gmap string V) (k : string) : result V :=
  match d !! k with
  | Some v => Ok v
  | None => Raise (KeyError k)
  end.

(** [for x in l: ...] with a body that may raise: the results are collected
    in order and the first exception stops the loop. *)
Fixpoint for_each {A B} (f : A -> result B) (l : list A) : result (list B) :=
  match l with
  | [] => Ok []
  | x :: l' => y ← f x; ys ← for_each f l'; Ok (y :: ys)
  end.

(** A list comprehension [[x for x in l if p(x)]] whose condition may raise. *)
Fixpoint filter_r {A} (p : A -> result bool) (l : list A) : result (list A) :=
  match l with
  | [] => Ok []
  | x :: l' =>
      b ← p x; xs ← filter_r p l';
      Ok (if b : bool then x :: xs else xs)
  end.

(** ** The fragment of [re] the chatbot uses

    Character classes only occur under [+]; alternation tries its left branch
    first, [+] and [?] are greedy, and a failure of the continuation
    backtracks into the last choice, as in Python's engine. *)

Module Re.

Inductive regex : Type :=
  | Lit (s : string)
  | Plus (cls : ascii -> bool)
  | Opt (r : regex)
  | Alt (r1 r2 : regex)
  | Seq (r1 r2 : regex)
  | Group (n : nat) (r : regex).

Definition captures : Type := list (nat * string).

Fixpoint drop_prefix (p s : string) : option string :=
  match p, s with
  | EmptyString, _ => Some s
  | String a p', String b s' => if Ascii.eqb a b then drop_prefix p' s' else None
  | String _ _, EmptyString => None
  end.

(** Zero or more characters of the class, longest first. *)
Fixpoint star {A} (cls : ascii -> bool) (s : string) (k : string -> option A)
  : option A :=
  let more :=
    match s with
    | String c s' => if cls c then star cls s' k else None
    | EmptyString => None
    end in
  match more with
  | Some x => Some x
  | None => k s
  end.

(** The text consumed between [s] and its suffix [s']. *)
Definition consumed (s s' : string) : string :=
  String.substring 0 (String.length s - String.length s') s.

Fixpoint run {A} (r : regex) (s : string) (caps : captures)
    (k : string -> captures -> option A) : option A :=
  match r with
  | Lit l =>
      match drop_prefix l s with
      | Some s' => k s' caps
      | None => None
      end
  | Plus cls =>
      match s with
      | String c s' => if cls c then star cls s' (fun t => k t caps) else None
      | EmptyString => None
      end
  | Opt r1 =>
      match run r1 s caps k with
      | Some x => Some x
      | None => k s caps
      end
  | Alt r1 r2 =>
      match run r1 s caps k with
      | Some x => Some x
      | None => run r2 s caps k
      end
  | Seq r1 r2 => run r1 s caps (fun s' caps' => run r2 s' caps' k)
  | Group n r1 =>
      run r1 s caps (fun s' caps' => k s' ((n, consumed s s') :: caps'))
  end.

(** [re.match(r, s)]: the captures of the first successful path. *)
Definition match_at (r : regex) (s : string) : option captures :=
  run r s [] (fun _ caps => Some caps).

(** [re.search(r, s)]: the leftmost position with a match. *)
Fixpoint search (r : regex) (s : string) : option captures :=
  match match_at r s with
  | Some caps => Some caps
  | None =>
      match s with
      | String _ s' => search r s'
      | EmptyString => None
      end
  end.

(** [m.group(n)] *)
Fixpoint group (n : nat) (caps : captures) : string :=
  match caps with
  | [] => ""
  | (m, s) :: caps' => if Nat.eqb m n then s else group n caps'
  end.

Fixpoint alts (l : list string) : regex :=
  match l with
  | [] => Lit ""
  | [a] => Lit a
  | a :: l' => Alt (Lit a) (alts l')
  end.

End Re.

(** ** Stable sorting

    [sorted(l, key=f)] is a stable sort that only uses [<] on the keys. Any
    stable sort returns the same list; the model is the insertion sort that
    puts an element before the first one that is not smaller than it. *)

Section Sorted.
Context {A K : Type} (key : A -> K) (lt : K -> K -> bool).

Fixpoint insert_by (x : A) (l : list A) : list A :=
  match l with
  | [] => [x]
  | y :: l' => if lt (key y) (key x) then y :: insert_by x l' else x :: l
  end.

Definition sorted (l : list A) : list A := foldr insert_by [] l.

(** [a] may stand before [b]: the key of [b] is not smaller. *)
Definition in_order (a b : A) : Prop := lt (key b) (key a) = false.
End Sorted.

(** ** The flat L2 index ([faiss.IndexFlatL2], built in
    [KnowledgeBaseBuilder.build_faiss_index])

    The index has a dimension [d] and stores the vectors in insertion order;
    row [i] has label [i]. [search] checks the query and the count with two
    [assert] statements and then calls [search_c], which returns, for one
    query vector, exactly [k] (distance, label) pairs in ascending order of
    squared Euclidean distance; when the index holds fewer than [k] vectors
    the tail is padded with label [-1]. The order among equal distances is
    not specified by faiss; the model keeps the row order. A count is a
    natural number. Every vector of an index has the dimension of the index
    ([add] asserts it); no property below depends on it. *)

Module Faiss.

Definition Vector : Type := list Q.

Record IndexFlatL2 : Type := { d : nat; xb : list Vector }.

Definition ntotal (ix : IndexFlatL2) : nat := length (xb ix).

Definition l2sqr (x y : Vector) : Q :=
  foldr Qplus 0%Q (zip_with (fun a b => (a - b) * (a - b))%Q x y).

(** The distance that faiss writes next to the label [-1]: [FLT_MAX]. *)
Definition pad_distance : Q := 340282346638528859811704183484516925440%Q.

Definition ranked (ix : IndexFlatL2) (x : Vector) : list (Q * Z) :=
  sorted fst Py.float_lt (imap (fun i v => (l2sqr x v, Z.of_nat i)) (xb ix)).

Definition search_c (ix : IndexFlatL2) (x : Vector) (k : nat) : list (Q * Z) :=
  let found := take k (ranked ix x) in
  found ++ replicate (k - length found) (pad_distance, (-1)%Z).

(** [index.search(x, k)] for a single query: [assert d == self.d] for the
    dimension of the query, then [assert k > 0]. *)
Definition search (ix : IndexFlatL2) (x : Vector) (k : nat)
  : result (list (Q * Z)) :=
  if negb (length x =? d ix)%nat then Raise AssertionError
  else if negb (0 <? k)%nat then Raise AssertionError
  else Ok (search_c ix x k).

End Faiss.

(** ** [retriever.py] *)

(** An entry of [documents.json]. *)
Record Document : Type := {
  d_id : string;
  d_type : string;
  d_content : string;
  d_metadata : gmap string string;
}.

(** The dictionary that [retrieve_documents] builds for a hit. *)
Record Result : Type := {
  r_id : string;
  r_score : Q;
  r_content : string;
  r_metadata : gmap string string;
  r_type : string;
}.

Record DocumentRetriever : Type := {
  model : string -> Faiss.Vector;
  index : Faiss.IndexFlatL2;
  document_metadata : gmap string (gmap string string);
  document_ids : list string;
  documents : list Document;
}.

(** [l[i]] on a list, with Python's negative indices. *)
Definition list_getitem {A} (l : list A) (i : Z) : result A :=
  let j := (if i <? 0 then Z.of_nat (length l) + i else i)%Z in
  if (j <? 0)%Z then Raise IndexError
  else match l !! Z.to_nat j with
       | Some x => Ok x
       | None => Raise IndexError
       end.

Definition query_to_embedding (self : DocumentRetriever) (query : string)
  : Faiss.Vector := model self query.

(** The body of the loop of [retrieve_documents] for one (distance, label)
    pair: [None] when nothing is appended. *)
Definition retrieve_one (self : DocumentRetriever) (hit : Q * Z)
  : result (option Result) :=
  let '(distance, idx) := hit in
  if (idx =? -1)%Z then Ok None
  else
    doc_id ← list_getitem (document_ids self) idx;
    metadata ← getitem (document_metadata self) doc_id;
    match List.find (fun doc => String.eqb (d_id doc) doc_id) (documents self) with
    | Some document =>
        Ok (Some {| r_id := doc_id;
                    r_score := (1 / (1 + distance))%Q;
                    r_content := d_content document;
                    r_metadata := metadata;
                    r_type := d_type document |})
    | None => Ok None
    end.

Definition retrieve_documents (self : DocumentRetriever) (query : string)
    (top_k : nat) : result (list Result) :=
  let query_embedding := query_to_embedding self query in
  hits ← Faiss.search (index self) query_embedding top_k;
  found ← for_each (retrieve_one self) hits;
  Ok (omap (M:=list) (fun r : option Result => r) found).

(** The condition of the comprehension in [search_by_restaurant]; [and] and
    [or] evaluate their right operand only when needed. *)
Definition restaurant_filter (restaurant_name : string) (doc : Result)
  : result bool :=
  is_restaurant ←
    (if String.eqb (r_type doc) "restaurant"
     then name ← getitem (r_metadata doc) "name";
          Ok (String.eqb (Py.lower name) (Py.lower restaurant_name))
     else Ok false);
  if is_restaurant : bool then Ok true
  else if String.eqb (r_type doc) "menu_item"
       then owner ← getitem (r_metadata doc) "restaurant";
            Ok (String.eqb (Py.lower owner) (Py.lower restaurant_name))
       else Ok false.

Definition search_by_restaurant (self : DocumentRetriever)
    (restaurant_name : string) (top_k : nat) : result (list Result) :=
  let query := "Information about restaurant " +:+ restaurant_name in
  results ← retrieve_documents self query top_k;
  filter_r (restaurant_filter restaurant_name) results.

Definition search_menu_items (self : DocumentRetriever) (query : string)
    (top_k : nat) : result (list Result) :=
  let menu_query := "Menu item " +:+ query in
  results ← retrieve_documents self menu_query (top_k * 2);
  let menu_items := filter (fun doc => r_type doc = "menu_item") results in
  Ok (take top_k menu_items).

(** The two nested conditions of the loop of [search_dietary_options]. *)
Definition dietary_filter (dietary_preference : string) (doc : Result) : bool :=
  if String.eqb (r_type doc) "menu_item" then
    match r_metadata doc !! "dietary_info" with
    | Some info => Py.contains (Py.lower dietary_preference) (Py.lower info)
    | None => false
    end
  else false.

Definition search_dietary_options (self : DocumentRetriever)
    (dietary_preference : string) (top_k : nat) : result (list Result) :=
  let dietary_query :=
    "Menu items with " +:+ dietary_preference +:+ " dietary preference" in
  results ← retrieve_documents self dietary_query (top_k * 3);
  let filtered_results := filter (fun doc => dietary_filter dietary_preference doc) results in
  Ok (take top_k filtered_results).

Definition stopwords : gset string :=
  list_to_set ["the"; "a"; "an"; "in"; "on"; "at"; "of"; "for"; "with";
               "about"; "restaurant"; "food"; "menu"].

Definition key_terms (query : string) : list string :=
  filter (fun term => term ∉ stopwords) (Py.split (Py.lower query)).

Definition retrieve_with_fallback (self : DocumentRetriever) (query : string)
    (top_k : nat) : result (list Result) :=
  results ← retrieve_documents self query top_k;
  results ←
    (if (length results <? top_k)%nat then
       match key_terms query with
       | [] => Ok results
       | terms =>
           let simplified_query := Py.join " " terms in
           additional_results ←
             retrieve_documents self simplified_query (top_k - length results);
           let existing_ids : gset string := list_to_set (r_id <$> results) in
           Ok (results ++
               filter (fun doc => r_id doc ∉ existing_ids) additional_results)
       end
     else Ok results);
  Ok (take top_k results).

(** ** Calls observed during a turn

    The methods of the generator end in a call of the text-generation
    pipeline, and [RAGChatbot.answer] calls methods of the retriever and of
    the generator. A computation of type [traced A] carries the list of these
    calls in the order they happen, and stops at the first exception. *)

Inductive retriever_call : Type :=
  | SearchByRestaurant (restaurant_name : string) (top_k : nat)
  | SearchDietaryOptions (dietary_preference : string) (top_k : nat)
  | SearchMenuItems (query : string) (top_k : nat)
  | RetrieveWithFallback (query : string) (top_k : nat).

Inductive generator_call : Type :=
  | AnswerQuery (query : string)
  | HandleNoResults (query : string)
  | GenerateComparison (query : string).

Inductive event : Type :=
  | Retriever (call : retriever_call)
  | Generator (call : generator_call)
  | Pipeline (prompt : string).

Record traced (A : Type) : Type := Traced {
  trace : list event;
  outcome : result A;
}.
Arguments Traced {A} trace outcome.
Arguments trace {A} t.
Arguments outcome {A} t.

#[global] Instance traced_ret : MRet traced := fun A a => Traced [] (Ok a).
#[global] Instance traced_bind : MBind traced := fun A B f m =>
  match outcome m with
  | Ok a => Traced (trace m ++ trace (f a)) (outcome (f a))
  | Raise e => Traced (trace m) (Raise e)
  end.

Definition emit (e : event) : traced unit := Traced [e] (Ok tt).
Definition lift {A} (r : result A) : traced A := Traced [] r.

(** ** [generator.py] *)

Record ResponseGenerator : Type := {
  (** [self.generator(prompt, ...)[0]["generated_text"]] *)
  generator : string -> result string;
}.

(** [metadata.get(k)] used as a condition: the value when the key is present
    and its value is non-empty. *)
Definition get_truthy (metadata : gmap string string) (k : string) : option string :=
  match metadata !! k with
  | Some v => if Py.truthy v then Some v else None
  | None => None
  end.

(** One optional line: [if metadata.get(k): context_parts.append(label + value)]. *)
Definition optional_line (metadata : gmap string string) (label k : string)
  : list string :=
  match get_truthy metadata k with
  | Some v => [label +:+ v]
  | None => []
  end.

Definition sort_key (x : Result) : Q * string := ((- r_score x)%Q, r_type x).

(** [<] on the key tuples: the first components that differ decide. *)
Definition key_lt (a b : Q * string) : bool :=
  if Py.float_eq a.1 b.1 then Py.str_lt a.2 b.2 else Py.float_lt a.1 b.1.

Definition sorted_docs (documents : list Result) : list Result :=
  sorted sort_key key_lt documents.

(** The lines appended to [context_parts] by one iteration of the loop of
    [format_documents_for_prompt]. *)
Definition context_block (doc : Result) : result (list string) :=
  let doc_type := r_type doc in
  let metadata := r_metadata doc in
  if String.eqb doc_type "restaurant" then
    name ← getitem metadata "name";
    let header := ["Restaurant Information - " +:+ name +:+ ":"] in
    address_line ←
      match get_truthy metadata "address" with
      | Some address =>
          city ← getitem metadata "city";
          state ← getitem metadata "state";
          Ok ["Address: " +:+ address +:+ ", " +:+ city +:+ ", " +:+ state]
      | None => Ok []
      end;
    Ok (header ++ address_line
          ++ optional_line metadata "Hours: " "hours"
          ++ optional_line metadata "Special Features: " "special_features"
          ++ optional_line metadata "Contact: " "phone"
          ++ [""])
  else if String.eqb doc_type "menu_item" then
    restaurant ← getitem metadata "restaurant";
    name ← getitem metadata "name";
    let header := ["Menu Item - " +:+ restaurant +:+ " - " +:+ name +:+ ":"] in
    Ok (header
          ++ optional_line metadata "Price: " "price"
          ++ optional_line metadata "Description: " "description"
          ++ optional_line metadata "Section: " "section"
          ++ optional_line metadata "Dietary Info: " "dietary_info"
          ++ [""])
  else Ok [].

Definition format_documents_for_prompt (documents : list Result) : result string :=
  match documents with
  | [] => Ok "No relevant information found."
  | _ =>
      blocks ← for_each context_block (sorted_docs documents);
      Ok (Py.join Py.nl (concat blocks))
  end.

Record Message : Type := { role : string; content : string }.

(** [l[-n:]] *)
Definition last_n {A} (n : nat) (l : list A) : list A := drop (length l - n) l.

Definition history_line (message : Message) : string :=
  Py.capitalize (role message) +:+ ": " +:+ content message.

Definition history_text (chat_history : option (list Message)) : string :=
  match chat_history with
  | Some ((_ :: _) as h) =>
      Py.nl +:+ "Previous Conversation:" +:+ Py.nl
        +:+ Py.join Py.nl (history_line <$> last_n 3 h)
  | _ => ""
  end.

Definition create_prompt (query : string) (documents : list Result)
    (chat_history : option (list Message)) : result string :=
  context ← format_documents_for_prompt documents;
  Ok ("Based on the following information about restaurants and their menus, "
      +:+ Py.nl +:+ "please answer the query accurately and helpfully."
      +:+ Py.nl +:+ Py.nl +:+ "Context Information:" +:+ Py.nl
      +:+ context +:+ Py.nl
      +:+ history_text chat_history +:+ Py.nl +:+ Py.nl
      +:+ "Query: " +:+ query +:+ Py.nl +:+ Py.nl
      +:+ "Answer:").

(** [re.sub(r'\s+', ' ', s)]; [in_run] says that the previous character was
    whitespace. *)
Fixpoint collapse_spaces (in_run : bool) (s : string) : string :=
  match s with
  | EmptyString => EmptyString
  | String c s' =>
      if Py.isspace c
      then if in_run then collapse_spaces true s'
           else String " "%char (collapse_spaces true s')
      else String c (collapse_spaces false s')
  end.

Definition _clean_response (response : string) : string :=
  (* re.sub(r'^Answer:\s*', '', response) *)
  let response :=
    match Re.drop_prefix "Answer:" response with
    | Some rest => Py.lstrip rest
    | None => response
    end in
  Py.strip (collapse_spaces false response).

Definition generate_response (self : ResponseGenerator) (prompt : string)
  : traced string :=
  _ ← emit (Pipeline prompt);
  response ← lift (generator self prompt);
  mret (_clean_response response).

Definition answer_query (self : ResponseGenerator) (query : string)
    (documents : list Result) (chat_history : option (list Message))
  : traced string :=
  _ ← emit (Generator (AnswerQuery query));
  prompt ← lift (create_prompt query documents chat_history);
  generate_response self prompt.

Definition fallback_prompt (query : string) : string :=
  "I don't have specific information about that in my restaurant database. "
  +:+ Py.nl +:+ "However, I can try to give a general response."
  +:+ Py.nl +:+ Py.nl +:+ "Query: " +:+ query +:+ Py.nl +:+ Py.nl +:+ "Answer:".

Definition handle_no_results (self : ResponseGenerator) (query : string)
  : traced string :=
  _ ← emit (Generator (HandleNoResults query));
  generate_response self (fallback_prompt query).

(** The one-line summary of a menu item in the comparison. *)
Definition item_text (item : Result) : result string :=
  let metadata := r_metadata item in
  name ← getitem metadata "name";
  let text := "- " +:+ name in
  let text :=
    match get_truthy metadata "price" with
    | Some price => text +:+ " (" +:+ price +:+ ")"
    | None => text
    end in
  let text :=
    match get_truthy metadata "dietary_info" with
    | Some info => text +:+ " - " +:+ info
    | None => text
    end in
  Ok text.

(** The lines appended for one entry of [restaurant_docs.items()]. *)
Definition comparison_block (entry : string * list Result) : result (list string) :=
  let '(restaurant_name, docs) := entry in
  let header := [Py.nl +:+ "--- " +:+ restaurant_name +:+ " ---"] in
  let restaurant_info := filter (fun doc => r_type doc = "restaurant") docs in
  let features :=
    match restaurant_info with
    | first :: _ => optional_line (r_metadata first) "Special Features: " "special_features"
    | [] => []
    end in
  let menu_items := filter (fun doc => r_type doc = "menu_item") docs in
  items ←
    match menu_items with
    | [] => Ok []
    | _ => lines ← for_each item_text (take 5 menu_items);
           Ok ("Menu Items:" :: lines)
    end;
  Ok (header ++ features ++ items).

Definition comparison_prompt (query : string)
    (restaurant_docs : list (string * list Result)) : result string :=
  blocks ← for_each comparison_block restaurant_docs;
  let context_parts :=
    "Here is information about the restaurants you want to compare:"
      :: concat blocks in
  Ok ("Based on the following information about multiple restaurants,"
      +:+ Py.nl +:+ "please provide a comparison addressing this query."
      +:+ Py.nl +:+ Py.nl
      +:+ Py.join " " context_parts +:+ Py.nl +:+ Py.nl
      +:+ "Query for comparison: " +:+ query +:+ Py.nl +:+ Py.nl
      +:+ "Detailed comparison:").

Definition generate_comparison (self : ResponseGenerator) (query : string)
    (restaurant_docs : list (string * list Result)) : traced string :=
  _ ← emit (Generator (GenerateComparison query));
  prompt ← lift (comparison_prompt query restaurant_docs);
  generate_response self prompt.

(** ** [rag_chatbot.py] *)

Record RAGChatbot : Type := {
  retriever : DocumentRetriever;
  (** [self.generator] *)
  response_generator : ResponseGenerator;
  chat_history : list Message;
}.

Definition add_message_to_history (self : RAGChatbot) (role content : string)
  : RAGChatbot :=
  {| retriever := retriever self;
     response_generator := response_generator self;
     chat_history := chat_history self ++ [{| role := role; content := content |}] |}.

Definition get_chat_history (self : RAGChatbot) : list Message := chat_history self.

Definition clear_chat_history (self : RAGChatbot) : RAGChatbot :=
  {| retriever := retriever self;
     response_generator := response_generator self;
     chat_history := [] |}.

(** The dictionary returned by [_detect_intent], by its ["type"]. *)
Inductive Intent : Type :=
  | Comparison (restaurants : list string)
  | Dietary (preference : string)
  | MenuItem (query : string)
  | RestaurantInfo (restaurant : string)
  | Generic (query : string).

(** [compare|comparison|versus|vs\.?|difference] *)
Definition comparison_re : Re.regex :=
  Re.Alt (Re.Lit "compare")
    (Re.Alt (Re.Lit "comparison")
      (Re.Alt (Re.Lit "versus")
        (Re.Alt (Re.Seq (Re.Lit "vs") (Re.Opt (Re.Lit ".")))
                (Re.Lit "difference")))).

(** [between\s+([a-zA-Z\s]+)\s+and\s+([a-zA-Z\s]+)] *)
Definition between_re : Re.regex :=
  Re.Seq (Re.Lit "between")
    (Re.Seq (Re.Plus Py.isspace)
      (Re.Seq (Re.Group 1 (Re.Plus Py.isalpha_or_space))
        (Re.Seq (Re.Plus Py.isspace)
          (Re.Seq (Re.Lit "and")
            (Re.Seq (Re.Plus Py.isspace)
                    (Re.Group 2 (Re.Plus Py.isalpha_or_space))))))).

(** [menu|item|dish|food|appetizer|entree|dessert] *)
Definition menu_re : Re.regex :=
  Re.alts ["menu"; "item"; "dish"; "food"; "appetizer"; "entree"; "dessert"].

(** [restaurant|location|address|hour|contact] *)
Definition restaurant_re : Re.regex :=
  Re.alts ["restaurant"; "location"; "address"; "hour"; "contact"].

Definition dietary_terms : list string :=
  ["vegetarian"; "vegan"; "gluten-free"; "gluten free"; "nut-free"; "dairy-free"].

Definition re_found (r : Re.regex) (s : string) : bool :=
  match Re.search r s with Some _ => true | None => false end.

(** The loop over the known restaurants in the comparison branch: the names
    (as stored) whose lower-cased form occurs in the query. *)
Fixpoint known_names_in (docs : list Document) (query_lower : string)
  : result (list string) :=
  match docs with
  | [] => Ok []
  | doc :: docs' =>
      if String.eqb (d_type doc) "restaurant" then
        name ← getitem (d_metadata doc) "name";
        names ← known_names_in docs' query_lower;
        Ok (if Py.contains (Py.lower name) query_lower then name :: names else names)
      else known_names_in docs' query_lower
  end.

(** The loop of the restaurant-info branch: it returns at the first known
    restaurant whose lower-cased name occurs in the query. *)
Fixpoint first_known_name_in (docs : list Document) (query_lower : string)
  : result (option string) :=
  match docs with
  | [] => Ok None
  | doc :: docs' =>
      if String.eqb (d_type doc) "restaurant" then
        name ← getitem (d_metadata doc) "name";
        if Py.contains (Py.lower name) query_lower then Ok (Some name)
        else first_known_name_in docs' query_lower
      else first_known_name_in docs' query_lower
  end.

(** The names collected by the comparison branch. *)
Definition extract_restaurant_names (self : RAGChatbot) (query_lower : string)
  : result (list string) :=
  match Re.search between_re query_lower with
  | Some between_match =>
      Ok [Py.strip (Re.group 1 between_match); Py.strip (Re.group 2 between_match)]
  | None => known_names_in (documents (retriever self)) query_lower
  end.

(** The first [if] of [_detect_intent] (the check for a comparison):
    [Some intent] when it returns, [None] when control falls through. *)
Definition comparison_branch (self : RAGChatbot) (query_lower : string)
  : result (option Intent) :=
  if re_found comparison_re query_lower then
    restaurant_names ← extract_restaurant_names self query_lower;
    if (2 <=? length restaurant_names)%nat
    then Ok (Some (Comparison restaurant_names))
    else Ok None
  else Ok None.

Definition _detect_intent (self : RAGChatbot) (query : string) : result Intent :=
  let query_lower := Py.lower query in
  (* Check for restaurant comparison intent *)
  comparison ← comparison_branch self query_lower;
  match comparison with
  | Some intent => Ok intent
  | None =>
      (* Check for dietary restriction intent *)
      match List.find (fun term => Py.contains term query_lower) dietary_terms with
      | Some term => Ok (Dietary term)
      | None =>
          (* Check for menu item intent *)
          if re_found menu_re query_lower then Ok (MenuItem query)
          else
            (* Check for restaurant-specific intent *)
            restaurant ←
              (if re_found restaurant_re query_lower
               then first_known_name_in (documents (retriever self)) query_lower
               else Ok None);
            match restaurant with
            | Some name => Ok (RestaurantInfo name)
            | None => Ok (Generic query)
            end
      end
  end.

(** [d[k] = v] on a dictionary that remembers the insertion order. *)
Fixpoint dict_set {V} (d : list (string * V)) (k : string) (v : V)
  : list (string * V) :=
  match d with
  | [] => [(k, v)]
  | (k', v') :: d' =>
      if String.eqb k' k then (k', v) :: d' else (k', v') :: dict_set d' k v
  end.

(** The loop [for restaurant in intent["restaurants"]] of [answer]. *)
Fixpoint collect_restaurant_docs (r : DocumentRetriever)
    (restaurants : list string) (restaurant_docs : list (string * list Result))
  : traced (list (string * list Result)) :=
  match restaurants with
  | [] => mret restaurant_docs
  | restaurant :: rest =>
      _ ← emit (Retriever (SearchByRestaurant restaurant 10));
      docs ← lift (search_by_restaurant r restaurant 10);
      collect_restaurant_docs r rest (dict_set restaurant_docs restaurant docs)
  end.

(** The part of [answer] between the two updates of the history. *)
Definition respond (self : RAGChatbot) (query : string) : traced string :=
  let r := retriever self in
  let g := response_generator self in
  let history := Some (chat_history self) in
  intent ← lift (_detect_intent self query);
  match intent with
  | Comparison restaurants =>
      restaurant_docs ← collect_restaurant_docs r restaurants [];
      generate_comparison g query restaurant_docs
  | Dietary preference =>
      _ ← emit (Retriever (SearchDietaryOptions preference 10));
      documents ← lift (search_dietary_options r preference 10);
      match documents with
      | _ :: _ => answer_query g query documents history
      | [] => mret ("I couldn't find any menu items with " +:+ preference
                    +:+ " dietary preference in our database.")
      end
  | MenuItem _ =>
      _ ← emit (Retriever (SearchMenuItems query 10));
      documents ← lift (search_menu_items r query 10);
      match documents with
      | _ :: _ => answer_query g query documents history
      | [] =>
          _ ← emit (Retriever (RetrieveWithFallback query 5));
          documents ← lift (retrieve_with_fallback r query 5);
          answer_query g query documents history
      end
  | RestaurantInfo restaurant =>
      _ ← emit (Retriever (SearchByRestaurant restaurant 10));
      documents ← lift (search_by_restaurant r restaurant 10);
      match documents with
      | _ :: _ => answer_query g query documents history
      | [] => mret ("I couldn't find information about " +:+ restaurant
                    +:+ " in our database.")
      end
  | Generic _ =>
      _ ← emit (Retriever (RetrieveWithFallback query 5));
      documents ← lift (retrieve_with_fallback r query 5);
      match documents with
      | _ :: _ => answer_query g query documents history
      | [] => handle_no_results g query
      end
  end.

(** [answer]: the new state of the chatbot and what the turn did. When the
    turn raises, the user message stays in the history and nothing else is
    appended. *)
Definition answer (self : RAGChatbot) (query : string)
  : RAGChatbot * traced string :=
  let self := add_message_to_history self "user" query in
  let turn := respond self query in
  match outcome turn with
  | Ok response => (add_message_to_history self "assistant" response, turn)
  | Raise _ => (self, turn)
  end.

(** ** Sessions *)

(** The queries of a session, answered one after the other. *)
Fixpoint session (self : RAGChatbot) (queries : list string)
  : RAGChatbot * list (traced string) :=
  match queries with
  | [] => (self, [])
  | query :: rest =>
      let '(self, turn) := answer self query in
      let '(final, turns) := session self rest in
      (final, turn :: turns)
  end.

(** What a turn leaves in the history. *)
Definition exchange (query : string) (turn : traced string) : list Message :=
  match outcome turn with
  | Ok response => [{| role := "user"; content := query |};
                    {| role := "assistant"; content := response |}]
  | Raise _ => [{| role := "user"; content := query |}]
  end.

(** ** Invariants of a loaded knowledge base

    [KnowledgeBaseBuilder.save_knowledge_base] writes the index, the id list,
    the metadata table and the documents from one list of documents. The
    retriever relies on the following consequences. *)

(** Every label of the index has an id, and every id has metadata. *)
Definition consistent (self : DocumentRetriever) : Prop :=
  Faiss.ntotal (index self) ≤ length (document_ids self) ∧
  Forall (λ doc_id, is_Some (document_metadata self !! doc_id)) (document_ids self).

(** The encoder produces vectors of the dimension of the index, as it does
    when the index was built from embeddings of the same model. *)
Definition same_dimension (self : DocumentRetriever) : Prop :=
  ∀ query, length (query_to_embedding self query) = Faiss.d (index self).

(** [id] is unique across the store. *)
Definition unique_ids (self : DocumentRetriever) : Prop :=
  NoDup (document_ids self).

(** The metadata [md] of a document of type [doc_type] has the field that
    identifies it: a restaurant has a [name], a menu item names its
    [restaurant]. *)
Definition has_identity (doc_type : string) (md : gmap string string) : Prop :=
  (doc_type = "restaurant" → is_Some (md !! "name")) ∧
  (doc_type = "menu_item" → is_Some (md !! "restaurant")).

Definition identified (self : DocumentRetriever) : Prop :=
  Forall (λ doc, ∀ md, document_metadata self !! d_id doc = Some md →
                       has_identity (d_type doc) md)
         (documents self).

(** The index and the document set differ in size. *)
Definition size_mismatch (self : DocumentRetriever) : Prop :=
  Faiss.ntotal (index self) ≠ length (documents self).

(** ** The filters of the specialised searches, in the words of the
    specification *)

(** [doc] is the restaurant [name] itself or one of its menu items, up to
    case. *)
Definition belongs_to (name : string) (doc : Result) : Prop :=
  (r_type doc = "restaurant" ∧
   ∃ own, r_metadata doc !! "name" = Some own ∧ Py.lower own = Py.lower name) ∨
  (r_type doc = "menu_item" ∧
   ∃ owner, r_metadata doc !! "restaurant" = Some owner ∧
            Py.lower owner = Py.lower name).


(** ** The classification rules, in the words of the specification *)

Section Rules.
Context (self : RAGChatbot) (query : string).

(** The comparison rule applies: a comparison keyword occurs and at least
    two restaurant names are extracted. *)
Definition comparison_fires (names : list string) : Prop :=
  re_found comparison_re (Py.lower query) = true ∧
  extract_restaurant_names self (Py.lower query) = Ok names ∧
  2 ≤ length names.

(** The comparison rule is passed over: no keyword, or fewer than two
    names. *)
Definition comparison_passes : Prop :=
  re_found comparison_re (Py.lower query) = false ∨
  ∃ names, extract_restaurant_names self (Py.lower query) = Ok names ∧
           length names < 2.

(** [term] is the first entry of the vocabulary that occurs in the query. *)
Definition first_dietary_term (term : string) : Prop :=
  ∃ i, dietary_terms !! i = Some term ∧
       Py.contains term (Py.lower query) = true ∧
       ∀ j other, j < i → dietary_terms !! j = Some other →
                  Py.contains other (Py.lower query) = false.

Definition no_dietary_term : Prop :=
  Forall (λ term, Py.contains term (Py.lower query) = false) dietary_terms.

(** The five rules, each with the failure of the rules before it. *)
Inductive classified : Intent → Prop :=
  | rule_comparison names :
      comparison_fires names → classified (Comparison names)
  | rule_dietary term :
      comparison_passes → first_dietary_term term → classified (Dietary term)
  | rule_menu_item :
      comparison_passes → no_dietary_term →
      re_found menu_re (Py.lower query) = true →
      classified (MenuItem query)
  | rule_restaurant_info name :
      comparison_passes → no_dietary_term →
      re_found menu_re (Py.lower query) = false →
      re_found restaurant_re (Py.lower query) = true →
      first_known_name_in (documents (retriever self)) (Py.lower query)
        = Ok (Some name) →
      classified (RestaurantInfo name)
  | rule_generic :
      comparison_passes → no_dietary_term →
      re_found menu_re (Py.lower query) = false →
      (re_found restaurant_re (Py.lower query) = false ∨
       first_known_name_in (documents (retriever self)) (Py.lower query)
         = Ok None) →
      classified (Generic query).
End Rules.

(** ** Required and optional metadata fields *)

(** The label and the key of the lines that [format_documents_for_prompt]
    writes under a condition, by document type. *)
Definition optional_fields (doc_type : string) : list (string * string) :=
  if String.eqb doc_type "restaurant" then
    [("Address: ", "address"); ("Hours: ", "hours");
     ("Special Features: ", "special_features"); ("Contact: ", "phone")]
  else if String.eqb doc_type "menu_item" then
    [("Price: ", "price"); ("Description: ", "description");
     ("Section: ", "section"); ("Dietary Info: ", "dietary_info")]
  else [].

(** The fields that the code reads with [metadata[...]]: the name of a
    restaurant, with the city and the state when it has an address, and the
    restaurant and the name of a menu item. *)
Definition renderable (doc : Result) : Prop :=
  let md := r_metadata doc in
  (r_type doc = "restaurant" →
     is_Some (md !! "name") ∧
     (is_Some (get_truthy md "address") →
        is_Some (md !! "city") ∧ is_Some (md !! "state"))) ∧
  (r_type doc = "menu_item" →
     is_Some (md !! "restaurant") ∧ is_Some (md !! "name")).

(** ** Readings of the specification that the code does not meet *)

(** Rendering and filtering never raise, whatever fields are missing. *)
Definition degrades_gracefully (documents : list Result) : Prop :=
  is_ok (format_documents_for_prompt documents) = true ∧
  ∀ name, Forall (λ doc, is_ok (restaurant_filter name doc) = true) documents.

(** The search raises whenever the index and the document set differ in
    size. *)
Definition size_check (self : DocumentRetriever) : Prop :=
  size_mismatch self →
  ∀ query top_k, is_ok (retrieve_documents self query top_k) = false.

(** Position [i] precedes position [j] in the context block whenever the two
    documents are a restaurant and a menu item of equal score. *)
Definition restaurant_first_on_ties (documents : list Result) : Prop :=
  ∀ i j a b,
    sorted_docs documents !! i = Some a →
    sorted_docs documents !! j = Some b →
    (r_score a == r_score b)%Q →
    r_type a = "restaurant" → r_type b = "menu_item" → i < j.

(** A menu-item query whose two retrievals find nothing ends in the
    no-results generation path. *)
Definition menu_item_reaches_no_results (self : RAGChatbot) (query : string)
  : Prop :=
  _detect_intent self query = Ok (MenuItem query) →
  search_menu_items (retriever self) query 10 = Ok [] →
  retrieve_with_fallback (retriever self) query 5 = Ok [] →
  Generator (HandleNoResults query) ∈ trace (answer self query).2.

(** ** A small knowledge base used in the examples *)

Module Fixture.

Definition md (l : list (string * string)) : gmap string string := list_to_map l.

Definition burger_joint : Document :=
  {| d_id := "restaurant_0"; d_type := "restaurant";
     d_content := "Restaurant: Burger Joint";
     d_metadata := md [("name", "Burger Joint"); ("address", "1 Main St");
                       ("city", "Springfield"); ("state", "IL");
                       ("hours", "9-5"); ("special_features", "Patio");
                       ("phone", "555-0100")] |}.

Definition taco_haven : Document :=
  {| d_id := "restaurant_1"; d_type := "restaurant";
     d_content := "Restaurant: Taco Haven";
     d_metadata := md [("name", "Taco Haven"); ("address", "");
                       ("phone", "555-0101")] |}.

Definition veggie_burger : Document :=
  {| d_id := "menu_item_0"; d_type := "menu_item";
     d_content := "Menu Item: Veggie Burger";
     d_metadata := md [("restaurant", "Burger Joint"); ("name", "Veggie Burger");
                       ("price", "$9"); ("dietary_info", "Vegan, Gluten-Free")] |}.

Definition beef_taco : Document :=
  {| d_id := "menu_item_1"; d_type := "menu_item";
     d_content := "Menu Item: Beef Taco";
     d_metadata := md [("restaurant", "Taco Haven"); ("name", "Beef Taco");
                       ("price", "$3")] |}.

Definition all_docs : list Document :=
  [burger_joint; taco_haven; veggie_burger; beef_taco].

(** A stand-in for the sentence encoder: the length of the text and whether
    it mentions tacos. *)
Definition encode (s : string) : Faiss.Vector :=
  [inject_Z (Z.of_nat (String.length s));
   if Py.contains "taco" (Py.lower s) then 1%Q else 0%Q].

(** The knowledge base that [save_knowledge_base] writes for [docs]. *)
Definition build (docs : list Document) : DocumentRetriever :=
  {| model := encode;
     index := {| Faiss.d := 2;
                 Faiss.xb := (fun d => encode (d_content d)) <$> docs |};
     document_metadata := list_to_map ((fun d => (d_id d, d_metadata d)) <$> docs);
     document_ids := d_id <$> docs;
     documents := docs |}.

Definition kb : DocumentRetriever := build all_docs.

(** A stand-in for the text-generation pipeline. *)
Definition echo : ResponseGenerator :=
  {| generator := fun prompt => Ok "Answer:  here   you go" |}.

Definition bot : RAGChatbot :=
  {| retriever := kb; response_generator := echo; chat_history := [] |}.

(** A chatbot over an empty knowledge base. *)
Definition empty_bot : RAGChatbot :=
  {| retriever := build []; response_generator := echo; chat_history := [] |}.

(** A chatbot whose index is empty although the documents are loaded:
    every retrieval finds nothing. *)
Definition unindexed_bot : RAGChatbot :=
  {| retriever :=
       {| model := encode;
          index := {| Faiss.d := 2; Faiss.xb := [] |};
          document_metadata := document_metadata kb;
          document_ids := document_ids kb;
          documents := all_docs |};
     response_generator := echo;
     chat_history := [] |}.

(** An index that holds one vector for a store of two documents. *)
Definition short_index : DocumentRetriever :=
  {| model := encode;
     index := {| Faiss.d := 2;
                 Faiss.xb := [encode "Restaurant: Burger Joint"] |};
     document_metadata := document_metadata kb;
     document_ids := ["restaurant_0"; "restaurant_1"];
     documents := [burger_joint; taco_haven] |}.

(** Two hits of equal score, a restaurant and a menu item. *)
Definition tie_restaurant : Result :=
  {| r_id := "restaurant_0"; r_score := (1 # 2)%Q; r_content := "";
     r_metadata := md [("name", "Burger Joint")]; r_type := "restaurant" |}.

Definition tie_menu_item : Result :=
  {| r_id := "menu_item_0"; r_score := (1 # 2)%Q; r_content := "";
     r_metadata := md [("restaurant", "Burger Joint"); ("name", "Veggie Burger")];
     r_type := "menu_item" |}.

(** A restaurant hit whose metadata lacks every field. *)
Definition nameless : Result :=
  {| r_id := "restaurant_9"; r_score := 1%Q; r_content := "";
     r_metadata := ∅; r_type := "restaurant" |}.

End Fixture.

(** ** Text in which whitespace only occurs as single spaces *)

(** [spaced after_space s]: every whitespace character of [s] is a space, no
    two spaces are adjacent, and [s] does not begin with a space when
    [after_space] holds. *)
Inductive spaced : bool → string → Prop :=
  | spaced_nil after_space : spaced after_space ""
  | spaced_space s : spaced true s → spaced false (String " " s)
  | spaced_char after_space c s :
      Py.isspace c = false → spaced false s → spaced after_space (String c s).

(** ** Observations on a trace *)

(** The prompts sent to the text-generation pipeline during a turn. *)
Definition pipeline_prompts (t : list event) : list string :=
  omap (λ e, match e with Pipeline prompt => Some prompt | _ => None end) t.

(** ** The intent dictionary *)

(** The ["type"] entry of the dictionary that [_detect_intent] returns. *)
Definition intent_type (intent : Intent) : string :=
  match intent with
  | Comparison _ => "comparison"
  | Dietary _ => "dietary"
  | MenuItem _ => "menu_item"
  | RestaurantInfo _ => "restaurant_info"
  | Generic _ => "generic"
  end.

(** The intent with its ["query"] entry, when it has one, set to [query]. *)
Definition with_query (query : string) (intent : Intent) : Intent :=
  match intent with
  | MenuItem _ => MenuItem query
  | Generic _ => Generic query
  | other => other
  end.

(** [name] is the stored name of a restaurant document, and its lower-case
    form occurs in [query_lower]. *)
Definition known_restaurant_in (self : RAGChatbot) (query_lower name : string)
  : Prop :=
  ∃ doc, doc ∈ documents (retriever self) ∧
         d_type doc = "restaurant" ∧
         d_metadata doc !! "name" = Some name ∧
         Py.contains (Py.lower name) query_lower = true.

(** Every restaurant document has a name. *)
Definition restaurants_named (docs : list Document) : Prop :=
  Forall (λ doc, d_type doc = "restaurant" → is_Some (d_metadata doc !! "name")) docs.

(** ** [build_kb.py]

    A row of the two tables is a record of strings, one field per column: a
    table with an empty cell or with a numeric column, which [read_csv] reads
    as numbers, is outside this model. The documents of the builder have one
    more entry, ["name"], beside the four of [Document]; nothing in [src/rag]
    reads it and it is left out. *)

(** A row of [restaurants.csv]. *)
Record RestaurantRow : Type := {
  rr_name : string;
  rr_url : string;
  rr_address : string;
  rr_city : string;
  rr_state : string;
  rr_phone : string;
  rr_email : string;
  rr_hours : string;
  rr_special_features : string;
}.

(** A row of [menu_items.csv]. *)
Record MenuItemRow : Type := {
  mr_restaurant : string;
  mr_name : string;
  mr_price : string;
  mr_description : string;
  mr_section : string;
  mr_dietary_info : string;
}.

(** The dictionary that one iteration of [create_restaurant_documents]
    appends; [documents] is the list built so far. *)
Definition restaurant_doc (documents : list Document) (row : RestaurantRow)
  : Document :=
  {| d_type := "restaurant";
     d_id := "restaurant_" +:+ pretty (length documents);
     d_content :=
       "Restaurant: " +:+ rr_name row +:+ Py.nl
       +:+ "Address: " +:+ rr_address row +:+ ", " +:+ rr_city row
       +:+ ", " +:+ rr_state row +:+ Py.nl
       +:+ "Phone: " +:+ rr_phone row +:+ Py.nl
       +:+ "Email: " +:+ rr_email row +:+ Py.nl
       +:+ "Hours: " +:+ rr_hours row +:+ Py.nl
       +:+ "Special Features: " +:+ rr_special_features row;
     d_metadata :=
       list_to_map [("name", rr_name row); ("address", rr_address row);
                    ("city", rr_city row); ("state", rr_state row);
                    ("phone", rr_phone row); ("email", rr_email row);
                    ("hours", rr_hours row);
                    ("special_features", rr_special_features row);
                    ("url", rr_url row)] |}.

Definition create_restaurant_documents (restaurants_df : list RestaurantRow)
  : list Document :=
  foldl (λ documents row, documents ++ [restaurant_doc documents row])
        [] restaurants_df.

(** The dictionary that one iteration of [create_menu_item_documents]
    appends. *)
Definition menu_item_doc (documents : list Document) (row : MenuItemRow)
  : Document :=
  {| d_type := "menu_item";
     d_id := "menu_item_" +:+ pretty (length documents);
     d_content :=
       "Restaurant: " +:+ mr_restaurant row +:+ Py.nl
       +:+ "Menu Item: " +:+ mr_name row +:+ Py.nl
       +:+ "Price: " +:+ mr_price row +:+ Py.nl
       +:+ "Description: " +:+ mr_description row +:+ Py.nl
       +:+ "Section: " +:+ mr_section row +:+ Py.nl
       +:+ "Dietary Info: " +:+ mr_dietary_info row;
     d_metadata :=
       list_to_map [("restaurant", mr_restaurant row); ("name", mr_name row);
                    ("price", mr_price row);
                    ("description", mr_description row);
                    ("section", mr_section row);
                    ("dietary_info", mr_dietary_info row)] |}.

Definition create_menu_item_documents (menu_items_df : list MenuItemRow)
  : list Document :=
  foldl (λ documents row, documents ++ [menu_item_doc documents row])
        [] menu_items_df.

Definition create_combined_documents (restaurant_docs menu_item_docs : list Document)
  : list Document :=
  restaurant_docs ++ menu_item_docs.

(** [create_document_embeddings]: one vector per document, from its content. *)
Definition create_document_embeddings (encode : string → Faiss.Vector)
    (documents : list Document) : list Faiss.Vector :=
  (λ doc, encode (d_content doc)) <$> documents.

(** [build_faiss_index]: a flat index of dimension [embeddings.shape[1]]
    with the embeddings added in order. The array of the embeddings is
    rectangular, so that its second dimension is the length of its first
    row; the array of no vector has one dimension only, and [shape[1]]
    raises. *)
Definition build_faiss_index (embeddings : list Faiss.Vector)
  : result Faiss.IndexFlatL2 :=
  match embeddings with
  | [] => Raise IndexError
  | first :: _ => Ok {| Faiss.d := length first; Faiss.xb := embeddings |}
  end.

(** The dictionary comprehension [{doc["id"]: doc["metadata"] for doc in
    documents}]: a later document replaces an earlier one of the same id. *)
Definition metadata_by_id (documents : list Document)
  : gmap string (gmap string string) :=
  foldl (λ table doc, <[d_id doc := d_metadata doc]> table) ∅ documents.

(** The retriever that [DocumentRetriever.__init__] loads from the files that
    [save_knowledge_base] writes for [index] and [documents]; the files are
    read back as they were written. *)
Definition saved_knowledge_base (encode : string → Faiss.Vector)
    (index : Faiss.IndexFlatL2) (documents : list Document) : DocumentRetriever :=
  {| model := encode;
     index := index;
     document_metadata := metadata_by_id documents;
     document_ids := d_id <$> documents;
     documents := documents |}.

(** [build_knowledge_base], from the two tables to the loaded retriever. *)
Definition build_knowledge_base (encode : string → Faiss.Vector)
    (restaurants_df : list RestaurantRow) (menu_items_df : list MenuItemRow)
  : result DocumentRetriever :=
  let restaurant_docs := create_restaurant_documents restaurants_df in
  let menu_item_docs := create_menu_item_documents menu_items_df in
  let all_docs := create_combined_documents restaurant_docs menu_item_docs in
  let embeddings := create_document_embeddings encode all_docs in
  index ← build_faiss_index embeddings;
  Ok (saved_knowledge_base encode index all_docs).

(** Every stored document has, in the metadata table, the fields that the
    generator reads without a guard. *)
Definition complete (self : DocumentRetriever) : Prop :=
  Forall (λ doc, ∀ md, document_metadata self !! d_id doc = Some md →
            renderable {| r_id := d_id doc; r_score := 0; r_content := d_content doc;
                          r_metadata := md; r_type := d_type doc |})
         (documents self).

(** The text-generation pipeline answers every prompt. *)
Definition responsive (g : ResponseGenerator) : Prop :=
  ∀ prompt, ∃ text, generator g prompt = Ok text.

(** ** Two small tables used in the examples *)

Definition sample_restaurants_df : list RestaurantRow :=
  [ {| rr_name := "Burger Joint"; rr_url := "https://burgerjoint.example";
       rr_address := "1 Main St"; rr_city := "Springfield"; rr_state := "IL";
       rr_phone := "555-0100"; rr_email := "hello@burgerjoint.example";
       rr_hours := "Monday: 9-5"; rr_special_features := "Patio" |} ].

Definition sample_menu_items_df : list MenuItemRow :=
  [ {| mr_restaurant := "Burger Joint"; mr_name := "Veggie Burger";
       mr_price := "$9"; mr_description := "A burger without meat";
       mr_section := "Mains"; mr_dietary_info := "Vegan, Gluten-Free" |};
    {| mr_restaurant := "Burger Joint"; mr_name := "Fries";
       mr_price := "$3"; mr_description := "Hand cut";
       mr_section := "Sides"; mr_dietary_info := "Vegan" |} ].

(** * Properties *)

(** ** The [result] and [traced] monads *)

Lemma bind_ok {A B} (m : result A) (f : A → result B) b :
  m ≫= f = Ok b ↔ ∃ a, m = Ok a ∧ f a = Ok b.
Proof.
  destruct m as [a|e]; simpl; split.
  - eauto.
  - by intros (a' & [= <-] & ?).
  - done.
  - by intros (? & ? & ?).
Qed.

Lemma for_each_ok {A B} (f : A → result B) l ys :
  for_each f l = Ok ys ↔ Forall2 (λ x y, f x = Ok y) l ys.
Proof.
  revert ys. induction l as [|x l IH]; intros ys; simpl.
  - split; [by intros [= <-]; constructor | by inversion 1].
  - rewrite bind_ok. split.
    + intros (y & Hy & H). apply bind_ok in H as (ys' & Hys & [= <-]).
      constructor; [done | by apply IH].
    + inversion 1 as [|? y ? ys' Hy Hys]; subst.
      exists y. split; [done|]. apply bind_ok. exists ys'.
      split; [by apply IH | done].
Qed.

Lemma for_each_total {A B} (f : A → result B) l :
  Forall (λ x, ∃ y, f x = Ok y) l → ∃ ys, for_each f l = Ok ys.
Proof.
  induction 1 as [|x l [y Hy] _ [ys Hys]]; simpl; [by eexists|].
  exists (y :: ys). by rewrite Hy, Hys.
Qed.

Lemma for_each_length {A B} (f : A → result B) l ys :
  for_each f l = Ok ys → length ys = length l.
Proof. rewrite for_each_ok. intros H. symmetry. by eapply Forall2_length. Qed.

Lemma filter_r_ok {A} (p : A → result bool) l xs :
  filter_r p l = Ok xs → Forall (λ x, p x = Ok true) xs ∧ xs `sublist_of` l.
Proof.
  revert xs. induction l as [|x l IH]; intros xs; simpl.
  - intros [= <-]. by split.
  - intros H. apply bind_ok in H as (b & Hb & H).
    apply bind_ok in H as (xs' & Hxs & [= <-]).
    destruct (IH _ Hxs) as [Hall Hsub]. destruct b.
    + split; [by constructor | by constructor].
    + split; [done | by constructor].
Qed.

Lemma filter_r_total {A} (p : A → result bool) l :
  Forall (λ x, ∃ b, p x = Ok b) l → ∃ xs, filter_r p l = Ok xs.
Proof.
  induction 1 as [|x l [b Hb] _ [xs Hxs]]; simpl; [by eexists|].
  rewrite Hb, Hxs. by eexists.
Qed.

Lemma filter_r_none {A} (p : A → result bool) l xs :
  filter_r p l = Ok xs → Forall (λ x, p x ≠ Ok true) l → xs = [].
Proof.
  intros H Hno. destruct xs as [|x xs]; [done|]. exfalso.
  destruct (filter_r_ok _ _ _ H) as [Hall Hsub].
  apply Forall_cons in Hall as [Hx _].
  assert (x ∈ l) as Hin by (eapply elem_of_sublist; [by left | done]).
  rewrite Forall_forall in Hno. by eapply Hno.
Qed.

(** ** Stable sorting *)

Section SortedFacts.
Context {A K : Type} (key : A → K) (lt : K → K → bool).

Lemma insert_by_perm x l : insert_by key lt x l ≡ₚ x :: l.
Proof.
  induction l as [|y l IH]; simpl; [done|].
  destruct (lt (key y) (key x)); [|done].
  rewrite IH. apply Permutation_swap.
Qed.

Lemma sorted_perm l : sorted key lt l ≡ₚ l.
Proof.
  induction l as [|x l IH]; simpl; [done|].
  by rewrite insert_by_perm, IH.
Qed.

Lemma sorted_length l : length (sorted key lt l) = length l.
Proof. by rewrite sorted_perm. Qed.

Hypothesis lt_asym : ∀ a b, lt a b = true → lt b a = false.
Hypothesis lt_negtrans :
  ∀ a b c, lt b a = false → lt c b = false → lt c a = false.

Lemma insert_by_in_order x l :
  StronglySorted (in_order key lt) l → StronglySorted (in_order key lt) (insert_by key lt x l).
Proof.
  induction 1 as [|y l Hl IH Hy]; simpl.
  - repeat constructor.
  - destruct (lt (key y) (key x)) eqn:Hyx.
    + constructor; [done|].
      rewrite insert_by_perm. constructor; [|done].
      by apply lt_asym.
    + constructor; [by constructor|].
      constructor; [done|].
      eapply Forall_impl; [exact Hy|]. intros z Hz.
      unfold in_order in *. by eapply lt_negtrans.
Qed.

Lemma sorted_in_order l : StronglySorted (in_order key lt) (sorted key lt l).
Proof.
  induction l as [|x l IH]; simpl; [constructor|].
  by apply insert_by_in_order.
Qed.

Lemma strongly_sorted_lookup (R : relation A) l i j a b :
  StronglySorted R l → l !! i = Some a → l !! j = Some b → i < j → R a b.
Proof.
  intros Hl. revert i j. induction Hl as [|x l Hl IH Hx]; intros i j Hi Hj Hlt.
  - done.
  - destruct j as [|j]; [lia|]. simpl in Hj.
    destruct i as [|i]; simpl in Hi.
    + injection Hi as ->. rewrite Forall_forall in Hx.
      apply Hx. by eapply list_elem_of_lookup_2.
    + eapply IH; [done..|lia].
Qed.

Lemma sorted_lookup l i j a b :
  sorted key lt l !! i = Some a → sorted key lt l !! j = Some b → i < j →
  in_order key lt a b.
Proof. apply strongly_sorted_lookup, sorted_in_order. Qed.
End SortedFacts.

(** ** The order of the sort keys *)

Lemma ascii_compare_lt_trans a b c :
  Ascii.compare a b = Lt → Ascii.compare b c = Lt → Ascii.compare a c = Lt.
Proof.
  unfold Ascii.compare. rewrite !N.compare_lt_iff. lia.
Qed.

Lemma string_compare_lt_trans s1 s2 s3 :
  String.compare s1 s2 = Lt → String.compare s2 s3 = Lt →
  String.compare s1 s3 = Lt.
Proof.
  revert s2 s3. induction s1 as [|a s1 IH]; intros [|b s2] [|c s3]; simpl; try done.
  destruct (Ascii.compare a b) eqn:Hab; [|clear IH|done];
    destruct (Ascii.compare b c) eqn:Hbc; try done.
  - apply Ascii.compare_eq_iff in Hab as ->. rewrite Hbc. apply IH.
  - apply Ascii.compare_eq_iff in Hab as ->. by rewrite Hbc.
  - apply Ascii.compare_eq_iff in Hbc as <-. by rewrite Hab.
  - by rewrite (ascii_compare_lt_trans a b c).
Qed.

Lemma str_lt_asym a b : Py.str_lt a b = true → Py.str_lt b a = false.
Proof.
  unfold Py.str_lt, String.ltb. rewrite (String.compare_antisym b a).
  by destruct (String.compare a b).
Qed.

Lemma str_lt_negtrans a b c :
  Py.str_lt b a = false → Py.str_lt c b = false → Py.str_lt c a = false.
Proof.
  unfold Py.str_lt, String.ltb. intros Hba Hcb.
  destruct (String.compare c a) eqn:Hca; try done. exfalso.
  destruct (String.compare b a) eqn:Hba'; try done.
  - apply String.compare_eq_iff in Hba' as ->. by rewrite Hca in Hcb.
  - rewrite String.compare_antisym in Hba'.
    destruct (String.compare a b) eqn:Hab; try done.
    by rewrite (string_compare_lt_trans c a b) in Hcb.
Qed.

Lemma float_lt_spec a b : Py.float_lt a b = true ↔ (a < b)%Q.
Proof.
  unfold Py.float_lt. rewrite andb_true_iff, negb_true_iff, Qle_bool_iff.
  rewrite <- not_true_iff_false, Qeq_bool_iff. split.
  - intros [Hle Hne]. apply Qle_lteq in Hle as [?|?]; [done | by destruct Hne].
  - intros Hlt. split; [by apply Qlt_le_weak | by apply Qlt_not_eq].
Qed.

Lemma float_lt_false a b : Py.float_lt a b = false ↔ (b <= a)%Q.
Proof.
  rewrite <- not_true_iff_false, float_lt_spec. split.
  - apply Qnot_lt_le.
  - apply Qle_not_lt.
Qed.

Lemma key_lt_asym a b : key_lt a b = true → key_lt b a = false.
Proof.
  unfold key_lt, Py.float_eq. rewrite (Qeq_bool_comm b.1 a.1).
  destruct (Qeq_bool a.1 b.1); [apply str_lt_asym|].
  rewrite float_lt_spec, float_lt_false. apply Qlt_le_weak.
Qed.

Lemma key_lt_negtrans a b c :
  key_lt b a = false → key_lt c b = false → key_lt c a = false.
Proof.
  unfold key_lt, Py.float_eq.
  destruct (Qeq_bool b.1 a.1) eqn:Hba, (Qeq_bool c.1 b.1) eqn:Hcb,
    (Qeq_bool c.1 a.1) eqn:Hca;
    repeat match goal with
      | H : Qeq_bool _ _ = true |- _ => apply Qeq_bool_iff in H
      | H : Qeq_bool _ _ = false |- _ => apply Qeq_bool_neq in H
      end;
    rewrite ?float_lt_false; intros H1 H2;
    try (by eapply str_lt_negtrans);
    first [ lra | match goal with H : ¬ (_ == _)%Q |- _ => destruct H; lra end ].
Qed.

(** C1, as stated: false on a restaurant and a menu item of equal score. *)
Lemma restaurant_first_on_ties_fails :
  ¬ restaurant_first_on_ties [Fixture.tie_restaurant; Fixture.tie_menu_item].
Proof.
  intros H.
  specialize (H 1 0 Fixture.tie_restaurant Fixture.tie_menu_item).
  assert (1 < 0) by (apply H; done). lia.
Qed.

Example tie_rendering :
  format_documents_for_prompt [Fixture.tie_restaurant; Fixture.tie_menu_item]
  = Ok (Py.join Py.nl ["Menu Item - Burger Joint - Veggie Burger:"; "";
                       "Restaurant Information - Burger Joint:"; ""]).
Proof. vm_compute. reflexivity. Qed.

(** C1 (amended). In the context block the documents stand in descending
    order of score and, among documents of equal score, in ascending order of
    the type string: a [menu_item] of the same score is never placed after a
    [restaurant]. The block is the concatenation of the per-document lines in
    that order. *)
Theorem format_documents_order documents i j a b :
  sorted_docs documents !! i = Some a →
  sorted_docs documents !! j = Some b →
  i < j →
  (r_score b <= r_score a)%Q ∧
  ((r_score a == r_score b)%Q →
     Py.str_lt (r_type b) (r_type a) = false ∧
     ¬ (r_type a = "restaurant" ∧ r_type b = "menu_item")) ∧
  (∀ text, documents ≠ [] → format_documents_for_prompt documents = Ok text →
     ∃ blocks, Forall2 (λ doc block, context_block doc = Ok block)
                 (sorted_docs documents) blocks ∧
               text = Py.join Py.nl (concat blocks)).
Proof.
  intros Hi Hj Hlt.
  pose proof (sorted_lookup sort_key key_lt key_lt_asym key_lt_negtrans
                documents i j a b Hi Hj Hlt) as Hord.
  unfold in_order, key_lt, sort_key, Py.float_eq in Hord. simpl in Hord.
  assert (Hscore : (r_score b <= r_score a)%Q).
  { destruct (Qeq_bool (- r_score b) (- r_score a)) eqn:Heq.
    - apply Qeq_bool_iff in Heq. lra.
    - apply float_lt_false in Hord. lra. }
  split; [done|]. split.
  - intros Heq.
    assert (Qeq_bool (- r_score b) (- r_score a) = true) as Hq.
    { apply Qeq_bool_iff. lra. }
    rewrite Hq in Hord. split; [done|].
    intros [Ha Hb]. by rewrite Ha, Hb in Hord.
  - intros text Hne. unfold format_documents_for_prompt.
    destruct documents as [|d ds]; [done|].
    intros H. apply bind_ok in H as (blocks & Hblocks & [= <-]).
    exists blocks. split; [by apply for_each_ok | done].
Qed.

Lemma format_documents_order_witness :
  (r_score Fixture.tie_restaurant <= r_score Fixture.tie_menu_item)%Q ∧
  ((r_score Fixture.tie_menu_item == r_score Fixture.tie_restaurant)%Q →
     Py.str_lt (r_type Fixture.tie_restaurant) (r_type Fixture.tie_menu_item) = false ∧
     ¬ (r_type Fixture.tie_menu_item = "restaurant" ∧
        r_type Fixture.tie_restaurant = "menu_item")) ∧
  (∀ text,
     [Fixture.tie_restaurant; Fixture.tie_menu_item] ≠ [] →
     format_documents_for_prompt [Fixture.tie_restaurant; Fixture.tie_menu_item]
       = Ok text →
     ∃ blocks, Forall2 (λ doc block, context_block doc = Ok block)
                 (sorted_docs [Fixture.tie_restaurant; Fixture.tie_menu_item])
                 blocks ∧
               text = Py.join Py.nl (concat blocks)).
Proof.
  apply (format_documents_order
           [Fixture.tie_restaurant; Fixture.tie_menu_item] 0 1
           Fixture.tie_menu_item Fixture.tie_restaurant).
  - reflexivity.
  - reflexivity.
  - lia.
Defined.

(** ** The index *)

Lemma search_ok ix x k hits :
  Faiss.search ix x k = Ok hits ↔
  length x = Faiss.d ix ∧ 0 < k ∧ hits = Faiss.search_c ix x k.
Proof.
  unfold Faiss.search.
  destruct (Nat.eqb_spec (length x) (Faiss.d ix)) as [Hd|Hd]; simpl.
  - destruct (Nat.ltb_spec 0 k) as [Hk|Hk]; simpl.
    + split; [by intros [= <-] | by intros (_ & _ & ->)].
    + split; [done | intros (_ & ? & _); lia].
  - split; [done | by intros (? & _)].
Qed.

Lemma search_raises ix x k :
  length x ≠ Faiss.d ix ∨ k = 0 → Faiss.search ix x k = Raise AssertionError.
Proof.
  unfold Faiss.search. intros H.
  destruct (Nat.eqb_spec (length x) (Faiss.d ix)) as [Hd|Hd]; simpl; [|done].
  destruct (Nat.ltb_spec 0 k) as [Hk|Hk]; simpl; [|done].
  destruct H; [done | lia].
Qed.

Lemma search_length ix x k : length (Faiss.search_c ix x k) = k.
Proof.
  unfold Faiss.search_c. rewrite length_app, length_replicate, length_take. lia.
Qed.

Lemma ranked_labels ix x :
  (Faiss.ranked ix x).*2 ≡ₚ Z.of_nat <$> seq 0 (Faiss.ntotal ix).
Proof.
  unfold Faiss.ranked, Faiss.ntotal. rewrite sorted_perm, fmap_imap.
  by rewrite (imap_ext _ (λ n _, Z.of_nat n)), imap_seq_0.
Qed.

Lemma search_label ix x k h :
  h ∈ Faiss.search_c ix x k →
  h.2 = (-1)%Z ∨ (0 ≤ h.2 < Z.of_nat (Faiss.ntotal ix))%Z.
Proof.
  unfold Faiss.search_c. rewrite elem_of_app. intros [Hin|Hin].
  - right. apply elem_of_take in Hin as (n & Hn & _).
    apply list_elem_of_lookup_2 in Hn.
    assert (h.2 ∈ (Faiss.ranked ix x).*2) as Hl by by apply list_elem_of_fmap_2.
    rewrite ranked_labels in Hl.
    apply list_elem_of_fmap in Hl as (m & -> & Hm).
    apply elem_of_seq in Hm. lia.
  - left. by apply elem_of_replicate_inv in Hin as ->.
Qed.

Lemma search_labels_nodup ix x k :
  NoDup (filter (λ i : Z, i ≠ (-1)%Z) (Faiss.search_c ix x k).*2).
Proof.
  unfold Faiss.search_c. rewrite fmap_app, filter_app, fmap_replicate. simpl.
  assert (∀ n, filter (λ i : Z, i ≠ (-1)%Z) (replicate n (-1)%Z) = []) as ->.
  { induction n as [|n IH]; [done|]. simpl.
    rewrite filter_cons_False by (intros ?; done). done. }
  rewrite app_nil_r. apply NoDup_filter. rewrite fmap_take.
  eapply sublist_NoDup; [|apply sublist_take].
  rewrite ranked_labels. apply NoDup_fmap_2; [apply _ | apply NoDup_seq].
Qed.

(** ** [retrieve_documents] *)

Lemma list_getitem_nonneg {A} (l : list A) i x :
  (0 ≤ i)%Z → list_getitem l i = Ok x ↔ l !! Z.to_nat i = Some x.
Proof.
  intros Hi. unfold list_getitem.
  destruct (Z.ltb_spec i 0) as [?|_]; [lia|].
  destruct (Z.ltb_spec i 0) as [?|_]; [lia|].
  destruct (l !! Z.to_nat i); split; congruence.
Qed.

Lemma retrieve_one_some self d i r :
  retrieve_one self (d, i) = Ok (Some r) →
  i ≠ (-1)%Z ∧
  list_getitem (document_ids self) i = Ok (r_id r) ∧
  document_metadata self !! r_id r = Some (r_metadata r) ∧
  ∃ doc, doc ∈ documents self ∧ d_id doc = r_id r ∧ d_type doc = r_type r.
Proof.
  unfold retrieve_one. destruct (Z.eqb_spec i (-1)) as [|Hi]; [done|].
  intros H. apply bind_ok in H as (doc_id & Hid & H).
  apply bind_ok in H as (md & Hmd & H).
  destruct (List.find _ _) as [doc|] eqn:Hfind; [|done].
  injection H as <-. simpl. apply find_some in Hfind as [Hin Heq].
  apply String.eqb_eq in Heq. unfold getitem in Hmd.
  destruct (document_metadata self !! doc_id) eqn:Hm; [|done].
  injection Hmd as ->. repeat split; try done.
  exists doc. by rewrite <- list_elem_of_In in Hin.
Qed.

Lemma retrieve_one_total self h :
  consistent self →
  h.2 = (-1)%Z ∨ (0 ≤ h.2 < Z.of_nat (Faiss.ntotal (index self)))%Z →
  ∃ o, retrieve_one self h = Ok o.
Proof.
  intros [Hsize Hmeta] Hh. destruct h as [d i]. simpl in Hh. unfold retrieve_one.
  destruct (Z.eqb_spec i (-1)) as [|Hi]; [by eexists|].
  destruct Hh as [?|Hh]; [done|].
  destruct (lookup_lt_is_Some_2 (document_ids self) (Z.to_nat i)) as [doc_id Hid];
    [lia|].
  assert (list_getitem (document_ids self) i = Ok doc_id) as ->
    by (apply list_getitem_nonneg; [lia | done]).
  simpl. rewrite Forall_forall in Hmeta.
  destruct (Hmeta doc_id) as [md Hmd]; [by eapply list_elem_of_lookup_2|].
  unfold getitem. rewrite Hmd. simpl. destruct (List.find _ _); by eexists.
Qed.

Lemma retrieve_documents_ok self query top_k res :
  retrieve_documents self query top_k = Ok res ↔
  length (query_to_embedding self query) = Faiss.d (index self) ∧ 0 < top_k ∧
  ∃ found,
    Forall2 (λ h o, retrieve_one self h = Ok o)
      (Faiss.search_c (index self) (model self query) top_k) found ∧
    res = omap (λ r, r) found.
Proof.
  unfold retrieve_documents. rewrite bind_ok. split.
  - intros (hits & (Hd & Hk & ->)%search_ok & H).
    apply bind_ok in H as (found & H & [= <-]). apply for_each_ok in H.
    split; [done|]. split; [done|]. by exists found.
  - intros (Hd & Hk & found & H & ->).
    exists (Faiss.search_c (index self) (query_to_embedding self query) top_k).
    split; [by apply search_ok|]. apply for_each_ok in H.
    unfold query_to_embedding. by rewrite H.
Qed.

Lemma retrieve_documents_hits self query top_k res :
  retrieve_documents self query top_k = Ok res →
  ∃ found,
    Forall2 (λ h o, retrieve_one self h = Ok o)
      (Faiss.search_c (index self) (model self query) top_k) found ∧
    res = omap (λ r, r) found.
Proof. by intros (_ & _ & H)%retrieve_documents_ok. Qed.

Lemma retrieve_documents_asserts self query top_k :
  length (query_to_embedding self query) ≠ Faiss.d (index self) ∨ top_k = 0 →
  retrieve_documents self query top_k = Raise AssertionError.
Proof.
  intros H. unfold retrieve_documents. by rewrite search_raises.
Qed.

Lemma omap_id_length {A} (l : list (option A)) :
  length (omap (λ r, r) l) ≤ length l.
Proof. induction l as [|[x|] l IH]; csimpl; lia. Qed.

Lemma retrieve_documents_length self query top_k res :
  retrieve_documents self query top_k = Ok res → length res ≤ top_k.
Proof.
  intros (found & Hfound & ->)%retrieve_documents_hits.
  etrans; [apply omap_id_length|].
  by rewrite <- (Forall2_length _ _ _ Hfound), search_length.
Qed.

Lemma retrieve_documents_total self query top_k :
  consistent self → same_dimension self → 0 < top_k →
  ∃ res, retrieve_documents self query top_k = Ok res.
Proof.
  intros Hc Hd Hk.
  destruct (for_each_total (retrieve_one self)
              (Faiss.search_c (index self) (query_to_embedding self query) top_k))
    as [found Hfound].
  - apply Forall_forall. intros h Hh.
    by apply retrieve_one_total, search_label with (x := query_to_embedding self query) (k := top_k).
  - exists (omap (λ r, r) found). apply retrieve_documents_ok.
    split; [apply Hd|]. split; [done|]. exists found. split; [|done].
    by apply for_each_ok.
Qed.

(** The hits that produce the results. *)
Lemma retrieved_from_hit self hits found r :
  Forall2 (λ h o, retrieve_one self h = Ok o) hits found →
  r ∈ omap (λ r, r) found →
  ∃ h, h ∈ hits ∧ retrieve_one self h = Ok (Some r).
Proof.
  intros HF Hr. apply list_elem_of_omap in Hr as (o & Ho & ->).
  apply list_elem_of_lookup_1 in Ho as [n Hn].
  destruct (Forall2_lookup_r _ _ _ _ _ HF Hn) as (h & Hh & Hone).
  exists h. split; [by eapply list_elem_of_lookup_2 | done].
Qed.

Lemma retrieved_ids_nodup self hits found :
  unique_ids self →
  Forall (λ h : Q * Z, h.2 = (-1)%Z ∨ (0 ≤ h.2)%Z) hits →
  NoDup (filter (λ i : Z, i ≠ (-1)%Z) hits.*2) →
  Forall2 (λ h o, retrieve_one self h = Ok o) hits found →
  NoDup (r_id <$> omap (λ r, r) found).
Proof.
  intros Hu Hsign Hnd HF. induction HF as [|[d i] o hits found Hone HF IH].
  - constructor.
  - apply Forall_cons in Hsign as [Hi Hsign]. simpl in Hi, Hnd.
    destruct o as [r|]; simpl.
    + apply retrieve_one_some in Hone as Hr. destruct Hr as (Hne & Hid & _).
      rewrite filter_cons_True in Hnd by done.
      apply NoDup_cons in Hnd as [Hfresh Hnd].
      destruct Hi as [?|Hi]; [done|].
      apply NoDup_cons. split; [|by apply IH].
      intros Hdup. apply list_elem_of_fmap in Hdup as (r' & Heq & Hr').
      destruct (retrieved_from_hit _ _ _ _ HF Hr') as ([d' i'] & Hh' & Hone').
      apply retrieve_one_some in Hone' as (Hne' & Hid' & _).
      rewrite Forall_forall in Hsign. destruct (Hsign _ Hh') as [?|Hi']; [done|].
      simpl in Hi'.
      apply list_getitem_nonneg in Hid; [|done].
      apply list_getitem_nonneg in Hid'; [|done].
      rewrite <- Heq in Hid'.
      assert (Z.to_nat i = Z.to_nat i') as Hii by by eapply (NoDup_lookup _ _ _ _ Hu).
      assert (i = i') as -> by lia.
      apply Hfresh. apply list_elem_of_filter. split; [done|].
      by apply (list_elem_of_fmap_2' snd _ (d', i')).
    + apply IH; [done|].
      destruct (decide (i = (-1)%Z)) as [->|Hne].
      * by rewrite filter_cons_False in Hnd by (intros ?; done).
      * rewrite filter_cons_True in Hnd by done. by apply NoDup_cons in Hnd as [_ ?].
Qed.

Lemma retrieve_documents_nodup self query top_k res :
  unique_ids self →
  retrieve_documents self query top_k = Ok res → NoDup (r_id <$> res).
Proof.
  intros Hu (found & Hfound & ->)%retrieve_documents_hits.
  eapply retrieved_ids_nodup; [done| |apply search_labels_nodup|done].
  apply Forall_forall. intros h Hh. apply search_label in Hh. lia.
Qed.

Lemma retrieve_documents_identified self query top_k res r :
  identified self →
  retrieve_documents self query top_k = Ok res → r ∈ res →
  has_identity (r_type r) (r_metadata r).
Proof.
  intros Hident (found & Hfound & ->)%retrieve_documents_hits Hr.
  destruct (retrieved_from_hit _ _ _ _ Hfound Hr) as ([d i] & _ & Hone).
  apply retrieve_one_some in Hone as (_ & _ & Hmd & doc & Hdoc & Hid & Hty).
  rewrite <- Hty. unfold identified in Hident. rewrite Forall_forall in Hident.
  apply Hident; [done | by rewrite Hid].
Qed.

Lemma for_each_raise {A B} (f : A → result B) l x e :
  x ∈ l → f x = Raise e → ∃ e', for_each f l = Raise e'.
Proof.
  intros Hin Hx. induction l as [|a l IH]; [by apply elem_of_nil in Hin|].
  simpl. apply elem_of_cons in Hin as [<-|Hin].
  - rewrite Hx. by eexists.
  - destruct (f a); simpl; [|by eexists].
    destruct (IH Hin) as [e' ->]. by eexists.
Qed.

(** An index with more vectors than there are document ids: a search that
    asks for all of them raises. *)
Lemma retrieve_documents_raises_beyond_ids self query top_k :
  length (document_ids self) < Faiss.ntotal (index self) →
  Faiss.ntotal (index self) ≤ top_k →
  ∃ e, retrieve_documents self query top_k = Raise e.
Proof.
  intros Hshort Hk.
  set (label := Z.of_nat (length (document_ids self))).
  assert (label ∈ (Faiss.ranked (index self) (model self query)).*2) as Hl.
  { rewrite ranked_labels. apply list_elem_of_fmap_2, elem_of_seq. lia. }
  apply list_elem_of_fmap in Hl as ([d i] & Hi & Hin). simpl in Hi. subst i.
  assert (length (Faiss.ranked (index self) (model self query))
          = Faiss.ntotal (index self)) as Hlen.
  { unfold Faiss.ranked, Faiss.ntotal. by rewrite sorted_length, length_imap. }
  assert ((d, label) ∈ Faiss.search_c (index self) (model self query) top_k) as Hhit.
  { unfold Faiss.search_c. apply elem_of_app. left. by rewrite take_ge by lia. }
  assert (retrieve_one self (d, label) = Raise IndexError) as Hone.
  { unfold retrieve_one, list_getitem, label.
    destruct (Z.eqb_spec (Z.of_nat (length (document_ids self))) (-1)); [lia|].
    destruct (Z.ltb_spec (Z.of_nat (length (document_ids self))) 0); [lia|].
    destruct (Z.ltb_spec (Z.of_nat (length (document_ids self))) 0); [lia|].
    rewrite Nat2Z.id, lookup_ge_None_2; done. }
  unfold retrieve_documents.
  destruct (Faiss.search _ _ _) as [hits|e] eqn:Hs; [|by exists e].
  apply search_ok in Hs as (_ & _ & ->).
  cbv beta iota delta [mbind result_bind]. unfold query_to_embedding.
  destruct (for_each_raise _ _ _ _ Hhit Hone) as [e ->]. by exists e.
Qed.

(** ** Substrings *)

Lemma startswith_spec p s : Py.startswith p s = true ↔ ∃ t, s = p +:+ t.
Proof.
  revert s. induction p as [|a p IH]; intros s; simpl.
  - split; [by exists s | done].
  - destruct s as [|b s]; [split; [done | by intros [? ?]]|].
    destruct (Ascii.eqb_spec a b) as [->|Hne].
    + rewrite IH. split; intros [t Ht]; exists t; [by rewrite Ht | by injection Ht].
    + split; [done | intros [t [= ? ?]]; done].
Qed.


(** C2, as stated: false on an index smaller than the document set, where
    every search returns normally. *)
Lemma size_check_fails : ¬ size_check Fixture.short_index.
Proof.
  intros H.
  assert (size_mismatch Fixture.short_index) as Hm by (vm_compute; lia).
  specialize (H Hm "burger" 2). vm_compute in H. discriminate H.
Qed.

(** C2 (amended). [retrieve_documents] has no check of the sizes. It returns
    normally, with at most [top_k] results, for every query and every
    positive [top_k] whenever the vectors of the encoder have the dimension
    of the index, each label of the index has a document id and each id has a
    metadata entry, also when the index and the document set differ in
    size. *)
Theorem retrieve_documents_never_raises self query top_k :
  consistent self → same_dimension self → 0 < top_k →
  ∃ res, retrieve_documents self query top_k = Ok res ∧ length res ≤ top_k.
Proof.
  intros Hc Hd Hk.
  destruct (retrieve_documents_total self query top_k Hc Hd Hk) as [res Hres].
  exists res. split; [done|]. by eapply retrieve_documents_length.
Qed.

Lemma retrieve_documents_never_raises_witness :
  size_mismatch Fixture.short_index ∧
  ∃ res, retrieve_documents Fixture.short_index "burger" 3 = Ok res ∧
         length res ≤ 3.
Proof.
  split.
  - vm_compute. lia.
  - apply (retrieve_documents_never_raises Fixture.short_index "burger" 3).
    + unfold consistent. compute_done.
    + intros query. reflexivity.
    + lia.
Defined.

(** ** [retrieve_with_fallback] *)

Lemma fallback_filter_fresh (base additional : list Result) :
  NoDup (r_id <$> base) → NoDup (r_id <$> additional) →
  NoDup (r_id <$> base ++
           filter (λ doc, r_id doc ∉ (list_to_set (r_id <$> base) : gset string))
                  additional).
Proof.
  intros Hb Ha. rewrite fmap_app. apply NoDup_app. split; [done|]. split.
  - intros x Hx Hx'. apply list_elem_of_fmap in Hx' as (doc & -> & Hdoc).
    apply list_elem_of_filter in Hdoc as [Hfresh _].
    apply Hfresh. by apply elem_of_list_to_set.
  - eapply sublist_NoDup; [exact Ha|]. apply fmap_sublist, sublist_filter.
Qed.

(** C5. On a store whose tables are consistent, whose ids are unique and
    whose encoder has the dimension of the index, for every query and every
    positive [top_k], [retrieve_with_fallback] returns the results of
    [retrieve_documents] for the same query and count, in their order,
    followed by supplemental results; the whole has at most [top_k] entries,
    no id twice, and is never shorter than the first retrieval. The
    supplemental results, when there are any, come in their own order from
    the retrieval of the non-stopword terms. *)
Theorem retrieve_with_fallback_spec self query top_k :
  consistent self → unique_ids self → same_dimension self → 0 < top_k →
  ∃ base extra,
    retrieve_documents self query top_k = Ok base ∧
    retrieve_with_fallback self query top_k = Ok (base ++ extra) ∧
    length (base ++ extra) ≤ top_k ∧
    NoDup (r_id <$> base ++ extra) ∧
    length base ≤ length (base ++ extra) ∧
    (extra = [] ∨
     ∃ additional,
       key_terms query ≠ [] ∧
       retrieve_documents self (Py.join " " (key_terms query))
         (top_k - length base) = Ok additional ∧
       extra `sublist_of` additional).
Proof.
  intros Hc Hu Hd Hk.
  destruct (retrieve_documents_total self query top_k Hc Hd Hk) as [base Hbase].
  pose proof (retrieve_documents_length _ _ _ _ Hbase) as Hlen.
  pose proof (retrieve_documents_nodup _ _ _ _ Hu Hbase) as Hnd.
  unfold retrieve_with_fallback. rewrite Hbase.
  cbv beta iota zeta delta [mbind result_bind].
  destruct (Nat.ltb_spec (length base) top_k) as [Hlt|Hge];
    [destruct (key_terms query) as [|term terms] eqn:Hterms|].
  - exists base, []. simpl. rewrite app_nil_r, take_ge by done. auto 10.
  - destruct (retrieve_documents_total self (Py.join " " (term :: terms))
                (top_k - length base) Hc Hd) as [additional Hadd]; [lia|].
    pose proof (retrieve_documents_length _ _ _ _ Hadd) as Hlen'.
    pose proof (retrieve_documents_nodup _ _ _ _ Hu Hadd) as Hnd'.
    cbv beta iota zeta. rewrite Hadd.
    set (extra := filter _ additional).
    assert (length extra ≤ length additional) as Hle by apply length_filter.
    exists base, extra.
    rewrite take_ge by (rewrite length_app; lia).
    rewrite length_app. repeat split; [lia | | lia |].
    + by apply fallback_filter_fresh.
    + right. exists additional. repeat split; [done..|].
      apply sublist_filter.
  - exists base, []. simpl. rewrite app_nil_r, take_ge by done. auto 10.
Qed.

Lemma retrieve_with_fallback_spec_witness :
  ∃ base extra,
    retrieve_documents Fixture.kb "the taco" 6 = Ok base ∧
    retrieve_with_fallback Fixture.kb "the taco" 6 = Ok (base ++ extra) ∧
    length (base ++ extra) ≤ 6 ∧
    NoDup (r_id <$> base ++ extra) ∧
    length base ≤ length (base ++ extra) ∧
    (extra = [] ∨
     ∃ additional,
       key_terms "the taco" ≠ [] ∧
       retrieve_documents Fixture.kb (Py.join " " (key_terms "the taco"))
         (6 - length base) = Ok additional ∧
       extra `sublist_of` additional).
Proof.
  apply (retrieve_with_fallback_spec Fixture.kb "the taco" 6).
  - unfold consistent. compute_done.
  - unfold unique_ids. compute_done.
  - intros query. reflexivity.
  - lia.
Defined.

(** ** [search_by_restaurant] *)

Lemma restaurant_filter_true name doc :
  restaurant_filter name doc = Ok true ↔ belongs_to name doc.
Proof.
  unfold restaurant_filter, belongs_to, getitem.
  destruct (String.eqb_spec (r_type doc) "restaurant") as [Hr|Hr];
    destruct (String.eqb_spec (r_type doc) "menu_item") as [Hm|Hm];
    try (rewrite Hr in Hm; discriminate Hm).
  - destruct (r_metadata doc !! "name") as [own|] eqn:Hown; simpl.
    + destruct (String.eqb_spec (Py.lower own) (Py.lower name)) as [Heq|Hne].
      * split; [|done]. intros _. left. eauto.
      * split; [done|]. intros [(_ & own' & [= <-] & ?)|[? _]]; congruence.
    + split; [done|]. intros [(_ & own' & ? & _)|[? _]]; congruence.
  - simpl. destruct (r_metadata doc !! "restaurant") as [owner|] eqn:Howner; simpl.
    + destruct (String.eqb_spec (Py.lower owner) (Py.lower name)) as [Heq|Hne].
      * split; [|done]. intros _. right. eauto.
      * split; [done|]. intros [[? _]|(_ & owner' & [= <-] & ?)]; congruence.
    + split; [done|]. intros [[? _]|(_ & owner' & ? & _)]; congruence.
  - simpl. split; [done|]. intros [[? _]|[? _]]; congruence.
Qed.

Lemma restaurant_filter_total name doc :
  has_identity (r_type doc) (r_metadata doc) →
  ∃ b, restaurant_filter name doc = Ok b.
Proof.
  intros [Hr Hm]. unfold restaurant_filter, getitem.
  destruct (String.eqb_spec (r_type doc) "restaurant") as [Hr'|_].
  - destruct (Hr Hr') as [own ->]. simpl.
    destruct (String.eqb _ _); [by eexists|].
    destruct (String.eqb_spec (r_type doc) "menu_item") as [Hm'|_]; [|by eexists].
    destruct (Hm Hm') as [owner ->]. by eexists.
  - simpl. destruct (String.eqb_spec (r_type doc) "menu_item") as [Hm'|_]; [|by eexists].
    destruct (Hm Hm') as [owner ->]. by eexists.
Qed.

(** The identifying field of one concrete document, by evaluation. *)
Ltac identity_by_evaluation :=
  let md := fresh "md" in
  let Hmd := fresh "Hmd" in
  let Hty := fresh "Hty" in
  intros md Hmd; vm_compute in Hmd; injection Hmd as <-;
  split; intros Hty;
  first [ vm_compute in Hty; discriminate Hty | vm_compute; eauto ].

(** C6. On a store whose tables are consistent, whose documents carry their
    identifying field and whose encoder has the dimension of the index, for
    every name and every positive [top_k], [search_by_restaurant] returns
    normally; every document it returns is the restaurant of that name or a
    menu item of it, up to case; and it returns the empty list when none of
    the retrieved documents is. *)
Theorem search_by_restaurant_spec self restaurant_name top_k :
  consistent self → identified self → same_dimension self → 0 < top_k →
  ∃ candidates res,
    retrieve_documents self ("Information about restaurant " +:+ restaurant_name)
      top_k = Ok candidates ∧
    search_by_restaurant self restaurant_name top_k = Ok res ∧
    res `sublist_of` candidates ∧
    Forall (belongs_to restaurant_name) res ∧
    (Forall (λ doc, ¬ belongs_to restaurant_name doc) candidates → res = []).
Proof.
  intros Hc Hi Hd Hk.
  destruct (retrieve_documents_total self
              ("Information about restaurant " +:+ restaurant_name) top_k Hc Hd Hk)
    as [candidates Hcand].
  destruct (filter_r_total (restaurant_filter restaurant_name) candidates)
    as [res Hres].
  { apply Forall_forall. intros doc Hdoc.
    apply restaurant_filter_total.
    by eapply retrieve_documents_identified. }
  exists candidates, res. unfold search_by_restaurant. rewrite Hcand. simpl.
  destruct (filter_r_ok _ _ _ Hres) as [Hall Hsub].
  repeat split; [done..| |].
  - eapply Forall_impl; [exact Hall|]. intros doc. apply restaurant_filter_true.
  - intros Hnone. eapply filter_r_none; [exact Hres|].
    eapply Forall_impl; [exact Hnone|]. intros doc Hdoc.
    by rewrite restaurant_filter_true.
Qed.

Lemma search_by_restaurant_spec_witness :
  ∃ candidates res,
    retrieve_documents Fixture.kb ("Information about restaurant " +:+ "burger joint")
      10 = Ok candidates ∧
    search_by_restaurant Fixture.kb "burger joint" 10 = Ok res ∧
    res `sublist_of` candidates ∧
    Forall (belongs_to "burger joint") res ∧
    (Forall (λ doc, ¬ belongs_to "burger joint" doc) candidates → res = []).
Proof.
  apply (search_by_restaurant_spec Fixture.kb "burger joint" 10).
  - unfold consistent. compute_done.
  - repeat apply Forall_cons_2; [..|apply Forall_nil_2]; identity_by_evaluation.
  - intros query. reflexivity.
  - lia.
Defined.

Example search_by_restaurant_found :
  r_id <$> default [] (match search_by_restaurant Fixture.kb "BURGER JOINT" 10 with
                       | Ok res => Some res | Raise _ => None end)
  = ["restaurant_0"; "menu_item_0"].
Proof. vm_compute. reflexivity. Qed.

Example search_by_restaurant_unknown :
  search_by_restaurant Fixture.kb "Sushi Express" 10 = Ok [].
Proof. vm_compute. reflexivity. Qed.

(** ** [search_dietary_options] *)




Example search_dietary_options_vegan :
  r_id <$> default [] (match search_dietary_options Fixture.kb "vegan" 10 with
                       | Ok res => Some res | Raise _ => None end)
  = ["menu_item_0"].
Proof. vm_compute. reflexivity. Qed.

(** ** Documents with missing metadata *)

(** C3, as stated: false on a restaurant without a [name]. *)
Lemma degrades_gracefully_fails : ¬ degrades_gracefully [Fixture.nameless].
Proof. intros [H _]. vm_compute in H. discriminate H. Qed.

Example nameless_rendering :
  format_documents_for_prompt [Fixture.nameless] = Raise (KeyError "name").
Proof. vm_compute. reflexivity. Qed.

Example nameless_filter :
  restaurant_filter "Burger Joint" Fixture.nameless = Raise (KeyError "name").
Proof. vm_compute. reflexivity. Qed.

Lemma context_block_total doc :
  renderable doc → ∃ block, context_block doc = Ok block.
Proof.
  intros [Hr Hm]. unfold context_block, getitem.
  destruct (String.eqb_spec (r_type doc) "restaurant") as [Hr'|_];
    [|destruct (String.eqb_spec (r_type doc) "menu_item") as [Hm'|_]].
  - destruct (Hr Hr') as [[name ->] Haddr]. simpl.
    destruct (get_truthy (r_metadata doc) "address") as [address|].
    + destruct Haddr as [[city ->] [state ->]]; [by eexists|]. simpl. by eexists.
    + simpl. by eexists.
  - destruct (Hm Hm') as [[restaurant ->] [name ->]]. simpl. by eexists.
  - by eexists.
Qed.

Lemma context_block_omits doc block label key :
  context_block doc = Ok block →
  (label, key) ∈ optional_fields (r_type doc) →
  get_truthy (r_metadata doc) key = None →
  Forall (λ line, Py.startswith label line = false) block.
Proof.
  unfold context_block, optional_fields, optional_line.
  destruct (String.eqb (r_type doc) "restaurant");
    [|destruct (String.eqb (r_type doc) "menu_item")].
  - intros Hblock Hfield Hnone.
    apply bind_ok in Hblock as (name & _ & Hblock).
    apply bind_ok in Hblock as (address_line & Haddr & [= <-]).
    repeat (apply elem_of_cons in Hfield as [[= -> ->]|Hfield]);
      [..|by apply elem_of_nil in Hfield];
      rewrite Hnone in *;
      try (injection Haddr as <-);
      repeat match goal with
        | H : context [get_truthy ?m ?k] |- _ => destruct (get_truthy m k)
        | |- context [get_truthy ?m ?k] => destruct (get_truthy m k)
        end;
      repeat match goal with
        | H : _ ≫= _ = Ok _ |- _ =>
            let x := fresh in apply bind_ok in H as (x & _ & H)
        | H : Ok _ = Ok _ |- _ => injection H as <-
        end;
      repeat constructor.
  - intros Hblock Hfield Hnone.
    apply bind_ok in Hblock as (restaurant & _ & Hblock).
    apply bind_ok in Hblock as (name & _ & [= <-]).
    repeat (apply elem_of_cons in Hfield as [[= -> ->]|Hfield]);
      [..|by apply elem_of_nil in Hfield];
      rewrite Hnone;
      repeat match goal with
        | |- context [get_truthy ?m ?k] => destruct (get_truthy m k)
        end;
      repeat constructor.
  - intros _ Hfield. by apply elem_of_nil in Hfield.
Qed.

Lemma renderable_identity doc :
  renderable doc → has_identity (r_type doc) (r_metadata doc).
Proof.
  intros [Hr Hm]. split; intros Hty; [by apply Hr | by apply Hm].
Qed.

(** C3 (amended). For documents that have the fields the code reads without
    a guard (the name of a restaurant, its city and state when it has an
    address, the restaurant and the name of a menu item), rendering and the
    restaurant filter never raise, and an optional field that is absent or
    empty leaves no line in the rendering. *)
Theorem missing_optional_fields_omitted documents :
  Forall renderable documents →
  (∃ text, format_documents_for_prompt documents = Ok text) ∧
  Forall (λ doc,
    (∀ name, ∃ b, restaurant_filter name doc = Ok b) ∧
    ∃ block, context_block doc = Ok block ∧
      ∀ label key,
        (label, key) ∈ optional_fields (r_type doc) →
        get_truthy (r_metadata doc) key = None →
        Forall (λ line, Py.startswith label line = false) block) documents.
Proof.
  intros Hall. split.
  - unfold format_documents_for_prompt. destruct documents as [|d ds]; [by eexists|].
    destruct (for_each_total context_block (sorted_docs (d :: ds))) as [blocks Hb].
    + unfold sorted_docs. rewrite sorted_perm.
      eapply Forall_impl; [exact Hall|]. apply context_block_total.
    + rewrite Hb. by eexists.
  - eapply Forall_impl; [exact Hall|]. intros doc Hdoc. split.
    + intros name. by apply restaurant_filter_total, renderable_identity.
    + destruct (context_block_total doc Hdoc) as [block Hblock].
      exists block. split; [done|]. intros label key.
      by apply context_block_omits.
Qed.

Lemma missing_optional_fields_omitted_witness :
  (∃ text, format_documents_for_prompt
             [Fixture.tie_restaurant; Fixture.tie_menu_item] = Ok text) ∧
  Forall (λ doc,
    (∀ name, ∃ b, restaurant_filter name doc = Ok b) ∧
    ∃ block, context_block doc = Ok block ∧
      ∀ label key,
        (label, key) ∈ optional_fields (r_type doc) →
        get_truthy (r_metadata doc) key = None →
        Forall (λ line, Py.startswith label line = false) block)
    [Fixture.tie_restaurant; Fixture.tie_menu_item].
Proof.
  apply (missing_optional_fields_omitted
           [Fixture.tie_restaurant; Fixture.tie_menu_item]).
  repeat apply Forall_cons_2; [..|apply Forall_nil_2];
    (split; intros Hty;
     first [ vm_compute in Hty; discriminate Hty
           | vm_compute; split; first [ by eauto | intros [? ?]; discriminate ] ]).
Defined.

(** ** [_detect_intent] *)

Lemma find_first {A} (p : A → bool) (l : list A) x :
  List.find p l = Some x ↔
  ∃ i, l !! i = Some x ∧ p x = true ∧
       ∀ j y, j < i → l !! j = Some y → p y = false.
Proof.
  induction l as [|a l IH]; simpl.
  - split; [done | by intros (i & ? & _)].
  - destruct (p a) eqn:Ha.
    + split.
      * intros [= <-]. exists 0. repeat split; [done|]. intros j y Hj. lia.
      * intros ([|i] & Hi & Hx & Hmin).
        -- by injection Hi as ->.
        -- rewrite (Hmin 0 a) in Ha; [done | lia | done].
    + rewrite IH. split.
      * intros (i & Hi & Hx & Hmin). exists (S i). repeat split; [done..|].
        intros [|j] y Hj Hy; [by injection Hy as <-|].
        apply (Hmin j); [lia | done].
      * intros ([|i] & Hi & Hx & Hmin).
        -- injection Hi as ->. congruence.
        -- exists i. repeat split; [done..|]. intros j y Hj Hy.
           apply (Hmin (S j)); [lia | done].
Qed.

Lemma find_nothing {A} (p : A → bool) (l : list A) :
  List.find p l = None ↔ Forall (λ y, p y = false) l.
Proof.
  induction l as [|a l IH]; simpl; [by split|].
  destruct (p a) eqn:Ha.
  - split; [done|]. intros [? _]%Forall_cons. congruence.
  - rewrite IH. split; [by constructor | by intros [_ ?]%Forall_cons].
Qed.

Lemma comparison_branch_some self query intent :
  comparison_branch self (Py.lower query) = Ok (Some intent) ↔
  ∃ names, intent = Comparison names ∧ comparison_fires self query names.
Proof.
  unfold comparison_branch, comparison_fires.
  destruct (re_found comparison_re (Py.lower query));
    [|split; [done | by intros (? & _ & ? & _)]].
  destruct (extract_restaurant_names self (Py.lower query)) as [names|e];
    cbv beta iota delta [mbind result_bind];
    [|split; [done | by intros (? & _ & _ & ? & _)]].
  destruct (Nat.leb_spec 2 (length names)) as [Hle|Hlt]; split.
  - intros [= <-]. by exists names.
  - by intros (? & -> & _ & [= <-] & _).
  - done.
  - intros (? & _ & _ & [= <-] & ?). lia.
Qed.

Lemma comparison_branch_none self query :
  comparison_branch self (Py.lower query) = Ok None ↔ comparison_passes self query.
Proof.
  unfold comparison_branch, comparison_passes.
  destruct (re_found comparison_re (Py.lower query)); [|split; auto].
  destruct (extract_restaurant_names self (Py.lower query)) as [names|e];
    cbv beta iota delta [mbind result_bind];
    [|split; [done | by intros [?|(? & ? & _)]]].
  destruct (Nat.leb_spec 2 (length names)) as [Hle|Hlt]; split.
  - done.
  - intros [?|(? & [= <-] & ?)]; [done | lia].
  - intros _. right. by exists names.
  - done.
Qed.

Lemma comparison_fires_passes self query names :
  comparison_fires self query names → comparison_passes self query → False.
Proof.
  intros (Hkw & Hnames & Hlen) [Hno|(names' & Hnames' & Hlen')].
  - congruence.
  - rewrite Hnames in Hnames'. injection Hnames' as <-. lia.
Qed.

(** C8. [_detect_intent] lower-cases the query and returns the intent of the
    first rule that applies, in the order Comparison, Dietary, MenuItem,
    RestaurantInfo, Generic. The comparison rule applies only when a
    comparison keyword occurs and at least two names are extracted;
    otherwise the later rules decide. *)
Theorem detect_intent_first_match self query intent :
  _detect_intent self query = Ok intent ↔ classified self query intent.
Proof.
  unfold _detect_intent. cbv zeta. rewrite bind_ok. split.
  - intros ([cmp|] & Hcmp & Hrest).
    + injection Hrest as <-.
      apply comparison_branch_some in Hcmp as (names & -> & Hfires).
      by constructor.
    + apply comparison_branch_none in Hcmp.
      destruct (List.find _ dietary_terms) as [term|] eqn:Hfind.
      { injection Hrest as <-. apply rule_dietary; [done|].
        by apply find_first in Hfind. }
      apply find_nothing in Hfind.
      destruct (re_found menu_re (Py.lower query)) eqn:Hmenu.
      { injection Hrest as <-. by apply rule_menu_item. }
      apply bind_ok in Hrest as (known & Hknown & Hrest).
      destruct (re_found restaurant_re (Py.lower query)) eqn:Hkw.
      * destruct known as [name|]; injection Hrest as <-.
        -- by apply rule_restaurant_info.
        -- apply rule_generic; auto.
      * injection Hknown as <-. injection Hrest as <-.
        apply rule_generic; auto.
  - intros H. destruct H as [names Hfires|term Hpass Hterm|Hpass Hnone Hmenu
                            |name Hpass Hnone Hmenu Hkw Hknown
                            |Hpass Hnone Hmenu Hgen].
    + exists (Some (Comparison names)). split; [|done].
      apply comparison_branch_some. by exists names.
    + exists None. split; [by apply comparison_branch_none|].
      apply (find_first (λ term, Py.contains term (Py.lower query))) in Hterm.
      by rewrite Hterm.
    + exists None. split; [by apply comparison_branch_none|].
      apply (find_nothing (λ term, Py.contains term (Py.lower query))) in Hnone. by rewrite Hnone, Hmenu.
    + exists None. split; [by apply comparison_branch_none|].
      apply (find_nothing (λ term, Py.contains term (Py.lower query))) in Hnone. by rewrite Hnone, Hmenu, Hkw, Hknown.
    + exists None. split; [by apply comparison_branch_none|].
      apply (find_nothing (λ term, Py.contains term (Py.lower query))) in Hnone. rewrite Hnone, Hmenu.
      destruct Hgen as [Hkw|Hknown].
      * by rewrite Hkw.
      * destruct (re_found restaurant_re (Py.lower query)); [by rewrite Hknown|done].
Qed.

Lemma detect_intent_first_match_witness :
  classified Fixture.bot "Compare the menu of Burger Joint vs. Taco Haven"
    (Comparison ["Burger Joint"; "Taco Haven"]) ∧
  classified Fixture.bot "Compare vegan food" (Dietary "vegan").
Proof.
  split.
  - apply (proj1 (detect_intent_first_match Fixture.bot
                    "Compare the menu of Burger Joint vs. Taco Haven"
                    (Comparison ["Burger Joint"; "Taco Haven"]))).
    vm_compute. reflexivity.
  - apply (proj1 (detect_intent_first_match Fixture.bot
                    "Compare vegan food" (Dietary "vegan"))).
    vm_compute. reflexivity.
Defined.

Example detect_comparison_between :
  _detect_intent Fixture.bot "Compare the prices between Burger Joint and Taco Haven"
  = Ok (Comparison ["burger joint"; "taco haven"]).
Proof. vm_compute. reflexivity. Qed.

Example detect_dietary :
  _detect_intent Fixture.bot "Does Sushi Express have any gluten-free items?"
  = Ok (Dietary "gluten-free").
Proof. vm_compute. reflexivity. Qed.

Example detect_menu_item :
  _detect_intent Fixture.bot "Tell me about Italian Restaurant's menu"
  = Ok (MenuItem "Tell me about Italian Restaurant's menu").
Proof. vm_compute. reflexivity. Qed.

Example detect_restaurant_info :
  _detect_intent Fixture.bot "Where is the Taco Haven location"
  = Ok (RestaurantInfo "Taco Haven").
Proof. vm_compute. reflexivity. Qed.

Example between_is_greedy :
  extract_restaurant_names Fixture.bot "compare between a and b and c"
  = Ok ["a and b"; "c"].
Proof. vm_compute. reflexivity. Qed.

Example clean_response_example :
  _clean_response ("Answer:   hi  there " +:+ Py.nl +:+ " x") = "hi there x".
Proof. vm_compute. reflexivity. Qed.

Example detect_keyword_alone :
  _detect_intent Fixture.bot "Compare things" = Ok (Generic "Compare things").
Proof. vm_compute. reflexivity. Qed.

(** ** The turns of [answer] *)

Lemma traced_bind_lift_ok {A B} (a : A) (f : A → traced B) :
  lift (Ok a) ≫= f = f a.
Proof. unfold mbind, traced_bind. simpl. by destruct (f a). Qed.

Lemma traced_bind_emit {B} (e : event) (f : unit → traced B) :
  emit e ≫= f = Traced (e :: trace (f tt)) (outcome (f tt)).
Proof. done. Qed.

Lemma answer_turn self query :
  (answer self query).2 = respond (add_message_to_history self "user" query) query.
Proof. unfold answer. by destruct (outcome _). Qed.

Lemma answer_history self query :
  chat_history (answer self query).1
  = chat_history self ++ exchange query (answer self query).2.
Proof.
  unfold exchange. rewrite answer_turn. unfold answer.
  destruct (outcome _); simpl; [|done]. by rewrite <- app_assoc.
Qed.

Lemma detect_intent_retriever c1 c2 query :
  retriever c1 = retriever c2 → _detect_intent c1 query = _detect_intent c2 query.
Proof.
  intros Heq. unfold _detect_intent, comparison_branch, extract_restaurant_names.
  by rewrite Heq.
Qed.

Lemma session_history self queries :
  chat_history (session self queries).1
  = chat_history self
      ++ concat (zip_with exchange queries (session self queries).2).
Proof.
  revert self. induction queries as [|query rest IH]; intros self; simpl.
  - by rewrite app_nil_r.
  - pose proof (answer_history self query) as Hstep.
    destruct (answer self query) as [self' turn]. simpl in Hstep.
    specialize (IH self'). destruct (session self' rest) as [final turns].
    simpl in *. by rewrite IH, Hstep, <- app_assoc.
Qed.

Lemma session_turns self queries :
  length (session self queries).2 = length queries.
Proof.
  revert self. induction queries as [|query rest IH]; intros self; simpl; [done|].
  destruct (answer self query) as [self' turn].
  specialize (IH self'). destruct (session self' rest). simpl in *. by rewrite IH.
Qed.

Lemma successful_exchanges queries (turns : list (traced string)) :
  Forall (λ turn, is_ok (outcome turn) = true) turns →
  length turns = length queries →
  length (concat (zip_with exchange queries turns)) = 2 * length queries.
Proof.
  intros Hok. revert queries.
  induction Hok as [|turn turns Hturn _ IH]; intros [|query queries] Hlen;
    simpl in *; try done.
  rewrite length_app, IH by lia. unfold exchange.
  destruct (outcome turn); [simpl; lia | done].
Qed.

(** C9. A session only appends to the history: after the queries of a
    session the history is the one before, followed by what each turn left.
    A successful turn leaves the user entry followed by the assistant entry,
    so that [n] successful calls from an empty history give a history of
    length [2n]; [clear_chat_history] gives the empty history. *)
Theorem history_append_only self queries :
  Forall (λ turn, is_ok (outcome turn) = true) (session self queries).2 →
  chat_history (session self queries).1
    = chat_history self
        ++ concat (zip_with exchange queries (session self queries).2) ∧
  Forall2 (λ query turn, ∃ response,
             exchange query turn = [{| role := "user"; content := query |};
                                    {| role := "assistant"; content := response |}])
    queries (session self queries).2 ∧
  length (chat_history (session self queries).1)
    = length (chat_history self) + 2 * length queries ∧
  (chat_history self = [] →
   length (chat_history (session self queries).1) = 2 * length queries) ∧
  length (chat_history (clear_chat_history (session self queries).1)) = 0.
Proof.
  intros Hok.
  assert (length (chat_history (session self queries).1)
          = length (chat_history self) + 2 * length queries) as Hlen.
  { rewrite session_history, length_app.
    by rewrite successful_exchanges by (done || apply session_turns). }
  split; [apply session_history|]. split; [|split; [done|split]].
  - apply Forall2_same_length_lookup_2; [by rewrite session_turns|].
    intros i query turn _ Hturn. rewrite Forall_forall in Hok.
    apply list_elem_of_lookup_2, Hok in Hturn.
    unfold exchange. destruct (outcome turn) as [response|]; [by exists response|done].
  - intros Hnil. by rewrite Hlen, Hnil.
  - done.
Qed.

Lemma history_append_only_witness :
  length (chat_history
            (session Fixture.bot ["Any vegan burger?"; "Where is the Taco Haven location"]).1)
  = 4.
Proof.
  apply (history_append_only Fixture.bot
           ["Any vegan burger?"; "Where is the Taco Haven location"]).
  - repeat constructor.
  - reflexivity.
Defined.

Example failed_turn_keeps_user_message :
  chat_history
    (answer {| retriever := Fixture.kb;
               response_generator := {| generator := λ _, Raise (UpstreamFailure "timeout") |};
               chat_history := [] |} "hello").1
  = [{| role := "user"; content := "hello" |}].
Proof. vm_compute. reflexivity. Qed.

(** ** The comparison path *)

(** C10. For a query classified as a comparison, the turn (the calls of the
    retriever, the prompt sent to the pipeline and the response) is computed
    from the query, the retriever and the generator alone: two chatbots that
    differ only in their history make the same calls with the same
    comparison prompt and give the same response. *)
Theorem comparison_ignores_history c1 c2 query restaurants :
  retriever c1 = retriever c2 →
  response_generator c1 = response_generator c2 →
  _detect_intent c1 query = Ok (Comparison restaurants) →
  (answer c1 query).2 = (answer c2 query).2 ∧
  (answer c1 query).2
    = (restaurant_docs ← collect_restaurant_docs (retriever c1) restaurants [];
       generate_comparison (response_generator c1) query restaurant_docs).
Proof.
  intros Hr Hg Hintent.
  assert (∀ c, retriever c = retriever c1 → response_generator c = response_generator c1 →
            (answer c query).2
            = (restaurant_docs ← collect_restaurant_docs (retriever c1) restaurants [];
               generate_comparison (response_generator c1) query restaurant_docs))
    as Hturn.
  { intros c Hcr Hcg. rewrite answer_turn. unfold respond.
    rewrite (detect_intent_retriever _ c1) by done.
    rewrite Hintent, traced_bind_lift_ok. simpl. by rewrite Hcr, Hcg. }
  split; [|by apply Hturn].
  by rewrite (Hturn c1), (Hturn c2).
Qed.

Lemma comparison_ignores_history_witness :
  (answer Fixture.bot "Burger Joint vs. Taco Haven?").2
  = (answer (add_message_to_history Fixture.bot "user" "hi")
       "Burger Joint vs. Taco Haven?").2.
Proof.
  apply (comparison_ignores_history Fixture.bot
           (add_message_to_history Fixture.bot "user" "hi")
           "Burger Joint vs. Taco Haven?" ["Burger Joint"; "Taco Haven"]).
  - reflexivity.
  - reflexivity.
  - vm_compute. reflexivity.
Defined.

(** ** Turns that retrieve nothing *)

(** C4, as stated: false for a menu-item query over an empty knowledge
    base, where both retrievals find nothing; the turn goes through
    [answer_query]. *)
Lemma menu_item_reaches_no_results_fails :
  ¬ menu_item_reaches_no_results Fixture.empty_bot "menu".
Proof.
  intros H.
  assert (Generator (HandleNoResults "menu")
            ∈ trace (answer Fixture.empty_bot "menu").2) as Hin
    by (apply H; vm_compute; reflexivity).
  vm_compute in Hin.
  repeat (apply elem_of_cons in Hin as [Hin|Hin]; [discriminate Hin|]).
  by apply elem_of_nil in Hin.
Qed.

Example menu_item_zero_documents_turn :
  trace (answer Fixture.empty_bot "menu").2
  = [Retriever (SearchMenuItems "menu" 10);
     Retriever (RetrieveWithFallback "menu" 5);
     Generator (AnswerQuery "menu");
     Pipeline ("Based on the following information about restaurants and their menus, "
               +:+ Py.nl +:+ "please answer the query accurately and helpfully."
               +:+ Py.nl +:+ Py.nl +:+ "Context Information:" +:+ Py.nl
               +:+ "No relevant information found." +:+ Py.nl
               +:+ Py.nl +:+ "Previous Conversation:" +:+ Py.nl +:+ "User: menu"
               +:+ Py.nl +:+ Py.nl +:+ "Query: menu" +:+ Py.nl +:+ Py.nl
               +:+ "Answer:")].
Proof. vm_compute. reflexivity. Qed.

(** C4 (amended). When the retrieval of a Dietary or RestaurantInfo intent
    returns no document, the answer is the templated message and the
    generator is not called. For a MenuItem intent whose search returns no
    document, [retrieve_with_fallback] is called once and its result, empty
    or not, goes to [answer_query]. For a Generic intent the only retrieval
    is [retrieve_with_fallback], and when it returns no document the answer
    comes from [handle_no_results]. *)
Theorem zero_documents_paths self query intent :
  _detect_intent self query = Ok intent →
  match intent with
  | Comparison _ => True
  | Dietary preference =>
      search_dietary_options (retriever self) preference 10 = Ok [] →
      (answer self query).2
      = Traced [Retriever (SearchDietaryOptions preference 10)]
          (Ok ("I couldn't find any menu items with " +:+ preference
               +:+ " dietary preference in our database."))
  | RestaurantInfo restaurant =>
      search_by_restaurant (retriever self) restaurant 10 = Ok [] →
      (answer self query).2
      = Traced [Retriever (SearchByRestaurant restaurant 10)]
          (Ok ("I couldn't find information about " +:+ restaurant
               +:+ " in our database."))
  | MenuItem _ =>
      search_menu_items (retriever self) query 10 = Ok [] →
      ∀ documents, retrieve_with_fallback (retriever self) query 5 = Ok documents →
      (answer self query).2
      = (_ ← emit (Retriever (SearchMenuItems query 10));
         _ ← emit (Retriever (RetrieveWithFallback query 5));
         answer_query (response_generator self) query documents
           (Some (chat_history self ++ [{| role := "user"; content := query |}])))
  | Generic _ =>
      retrieve_with_fallback (retriever self) query 5 = Ok [] →
      (answer self query).2
      = (_ ← emit (Retriever (RetrieveWithFallback query 5));
         handle_no_results (response_generator self) query)
  end.
Proof.
  intros Hintent.
  assert (_detect_intent (add_message_to_history self "user" query) query = Ok intent)
    as Hintent' by (by rewrite (detect_intent_retriever _ self)).
  destruct intent as [restaurants|preference|q|restaurant|q]; [done|..];
    rewrite answer_turn; unfold respond; rewrite Hintent', traced_bind_lift_ok;
    cbn [retriever response_generator chat_history add_message_to_history].
  - intros Hdocs. by rewrite traced_bind_emit, Hdocs, traced_bind_lift_ok.
  - intros Hdocs documents Hfallback.
    rewrite !traced_bind_emit, Hdocs, traced_bind_lift_ok.
    cbv beta iota. by rewrite ?traced_bind_emit, Hfallback, traced_bind_lift_ok.
  - intros Hdocs. by rewrite traced_bind_emit, Hdocs, traced_bind_lift_ok.
  - intros Hdocs. by rewrite !traced_bind_emit, Hdocs, traced_bind_lift_ok.
Qed.

Lemma zero_documents_paths_witness :
  (answer Fixture.unindexed_bot "Any vegan burger?").2
  = Traced [Retriever (SearchDietaryOptions "vegan" 10)]
      (Ok ("I couldn't find any menu items with " +:+ "vegan"
           +:+ " dietary preference in our database.")) ∧
  (answer Fixture.unindexed_bot "Where is the Taco Haven location").2
  = Traced [Retriever (SearchByRestaurant "Taco Haven" 10)]
      (Ok ("I couldn't find information about " +:+ "Taco Haven"
           +:+ " in our database.")) ∧
  (answer Fixture.unindexed_bot "menu").2
  = (_ ← emit (Retriever (SearchMenuItems "menu" 10));
     _ ← emit (Retriever (RetrieveWithFallback "menu" 5));
     answer_query (response_generator Fixture.unindexed_bot) "menu" []
       (Some (chat_history Fixture.unindexed_bot
                ++ [{| role := "user"; content := "menu" |}]))) ∧
  (answer Fixture.unindexed_bot "hello").2
  = (_ ← emit (Retriever (RetrieveWithFallback "hello" 5));
     handle_no_results (response_generator Fixture.unindexed_bot) "hello").
Proof.
  split; [|split; [|split]].
  - apply (zero_documents_paths Fixture.unindexed_bot "Any vegan burger?"
             (Dietary "vegan")); vm_compute; reflexivity.
  - apply (zero_documents_paths Fixture.unindexed_bot
             "Where is the Taco Haven location" (RestaurantInfo "Taco Haven"));
      vm_compute; reflexivity.
  - apply (zero_documents_paths Fixture.unindexed_bot "menu" (MenuItem "menu"));
      vm_compute; reflexivity.
  - apply (zero_documents_paths Fixture.unindexed_bot "hello" (Generic "hello"));
      vm_compute; reflexivity.
Defined.

(** * Further properties of the retriever *)

Lemma square_nonneg (x : Q) : (0 <= x * x)%Q.
Proof. nra. Qed.

Lemma l2sqr_nonneg x y : (0 <= Faiss.l2sqr x y)%Q.
Proof.
  unfold Faiss.l2sqr. revert y.
  induction x as [|a x IH]; intros [|b y]; simpl; try done.
  specialize (IH y). revert IH.
  generalize (foldr Qplus 0%Q (zip_with (λ a b : Q, (a - b) * (a - b))%Q x y)).
  intros t Ht. pose proof (square_nonneg (a - b)). lra.
Qed.

Lemma ranked_distance ix x h : h ∈ Faiss.ranked ix x → (0 <= h.1)%Q.
Proof.
  unfold Faiss.ranked. rewrite sorted_perm.
  intros (i & v & -> & _)%elem_of_lookup_imap. apply l2sqr_nonneg.
Qed.

Lemma search_distance ix x k h :
  h ∈ Faiss.search_c ix x k → h.2 ≠ (-1)%Z → (0 <= h.1)%Q.
Proof.
  unfold Faiss.search_c. rewrite elem_of_app. intros [Hin|Hin] Hl.
  - apply ranked_distance with ix x.
    eapply elem_of_sublist; [exact Hin | apply sublist_take].
  - by apply elem_of_replicate_inv in Hin as ->.
Qed.

Lemma retrieve_one_record self d i r :
  retrieve_one self (d, i) = Ok (Some r) →
  r_score r = (1 / (1 + d))%Q ∧
  ∃ doc, List.find (λ doc, String.eqb (d_id doc) (r_id r)) (documents self) = Some doc ∧
         r_type r = d_type doc ∧ r_content r = d_content doc.
Proof.
  unfold retrieve_one. destruct (Z.eqb_spec i (-1)) as [|Hi]; [done|].
  intros H. apply bind_ok in H as (doc_id & Hid & H).
  apply bind_ok in H as (md & Hmd & H).
  destruct (List.find _ _) as [doc|] eqn:Hfind; [|done].
  injection H as <-. simpl. split; [done|]. by exists doc.
Qed.

Lemma list_getitem_elem {A} (l : list A) i x : list_getitem l i = Ok x → x ∈ l.
Proof.
  unfold list_getitem. destruct (_ <? 0)%Z; [done|].
  destruct (l !! _) eqn:Hl; [|done]. intros [= <-].
  by eapply list_elem_of_lookup_2.
Qed.

(** X1. Every result of [retrieve_documents] is the join of three tables:
    its id is a listed document id, its metadata is the entry of that id in
    the metadata table, its type and content are those of the first stored
    document with that id, and its score lies in (0, 1]. *)
Theorem retrieve_documents_joins self query top_k res r :
  retrieve_documents self query top_k = Ok res → r ∈ res →
  r_id r ∈ document_ids self ∧
  document_metadata self !! r_id r = Some (r_metadata r) ∧
  (∃ doc, List.find (λ doc, String.eqb (d_id doc) (r_id r)) (documents self) = Some doc ∧
          r_type r = d_type doc ∧ r_content r = d_content doc) ∧
  (0 < r_score r <= 1)%Q.
Proof.
  intros (found & Hfound & ->)%retrieve_documents_hits Hr.
  destruct (retrieved_from_hit _ _ _ _ Hfound Hr) as ([d i] & Hhit & Hone).
  pose proof (retrieve_one_some _ _ _ _ Hone) as (Hne & Hid & Hmd & _).
  pose proof (retrieve_one_record _ _ _ _ Hone) as (Hscore & Hdoc).
  pose proof (search_distance _ _ _ _ Hhit Hne) as Hd. simpl in Hd.
  repeat split; [by eapply list_getitem_elem | done | done | |].
  - rewrite Hscore. apply Qlt_shift_div_l; lra.
  - rewrite Hscore. apply Qle_shift_div_r; lra.
Qed.

Lemma retrieve_documents_joins_witness :
  ∃ r, r_id r = "menu_item_1" ∧
       document_metadata Fixture.kb !! r_id r = Some (r_metadata r) ∧
       (0 < r_score r <= 1)%Q.
Proof.
  destruct (retrieve_documents Fixture.kb "taco" 3) as [res|] eqn:Hres;
    [|vm_compute in Hres; discriminate Hres].
  destruct res as [|r res]; [vm_compute in Hres; discriminate Hres|].
  exists r.
  destruct (retrieve_documents_joins Fixture.kb "taco" 3 (r :: res) r Hres)
    as (_ & Hmd & _ & Hscore); [by left|].
  split; [|done]. vm_compute in Hres. by injection Hres as <- _.
Defined.

Lemma float_lt_asym a b : Py.float_lt a b = true → Py.float_lt b a = false.
Proof. rewrite float_lt_spec, float_lt_false. apply Qlt_le_weak. Qed.

Lemma float_lt_negtrans a b c :
  Py.float_lt b a = false → Py.float_lt c b = false → Py.float_lt c a = false.
Proof. rewrite !float_lt_false. intros. lra. Qed.

Lemma score_antitone (d d' : Q) :
  (0 <= d)%Q → (d <= d')%Q → (1 / (1 + d') <= 1 / (1 + d))%Q.
Proof.
  intros Hd Hle. apply Qle_shift_div_l; [lra|].
  assert (1 / (1 + d') * (1 + d) == (1 + d) / (1 + d'))%Q as ->
    by (field; lra).
  apply Qle_shift_div_r; lra.
Qed.

(** The hits of a search, up to the padding, come in ascending order of
    distance. *)
Lemma search_ascending ix x k :
  StronglySorted (λ h1 h2 : Q * Z, h2.2 ≠ (-1)%Z → (h1.1 <= h2.1)%Q)
    (Faiss.search_c ix x k).
Proof.
  unfold Faiss.search_c. apply StronglySorted_app_2.
  - intros h1 h2 _ ->%elem_of_replicate_inv. by intros [].
  - apply StronglySorted_app_1_l with (drop k (Faiss.ranked ix x)).
    rewrite take_drop. unfold Faiss.ranked.
    pose proof (sorted_in_order fst Py.float_lt float_lt_asym float_lt_negtrans
                  (imap (λ i v, (Faiss.l2sqr x v, Z.of_nat i)) (Faiss.xb ix)))
      as Hsorted.
    induction Hsorted as [|h l _ IH Hh]; constructor; [done|].
    eapply Forall_impl; [exact Hh|]. intros h' Hord _. by apply float_lt_false.
  - generalize (k - length (take k (Faiss.ranked ix x))). intros n.
    induction n as [|n IH]; simpl; constructor; [done|].
    apply Forall_forall. intros h ->%elem_of_replicate_inv. by intros [].
Qed.

Lemma retrieved_scores_descend self hits found :
  Forall (λ h : Q * Z, h.2 ≠ (-1)%Z → (0 <= h.1)%Q) hits →
  StronglySorted (λ h1 h2 : Q * Z, h2.2 ≠ (-1)%Z → (h1.1 <= h2.1)%Q) hits →
  Forall2 (λ h o, retrieve_one self h = Ok o) hits found →
  StronglySorted (λ a b, (r_score b <= r_score a)%Q) (omap (λ r, r) found).
Proof.
  intros Hpos Hsorted HF.
  induction HF as [|[d i] o hits found Hone HF IH]; [constructor|].
  apply Forall_cons in Hpos as [Hd Hpos].
  apply StronglySorted_inv in Hsorted as [Hsorted Hhead].
  destruct o as [r|]; csimpl; [|by apply IH].
  constructor; [by apply IH|].
  apply Forall_forall. intros r' Hr'.
  destruct (retrieved_from_hit _ _ _ _ HF Hr') as ([d' i'] & Hin & Hone').
  apply retrieve_one_some in Hone as Hr. destruct Hr as (Hi & _).
  apply retrieve_one_some in Hone' as Hr. destruct Hr as (Hi' & _).
  apply retrieve_one_record in Hone as (-> & _).
  apply retrieve_one_record in Hone' as (-> & _).
  rewrite Forall_forall in Hhead, Hpos.
  pose proof (Hhead _ Hin Hi') as Hle. pose proof (Hpos _ Hin Hi') as Hd'.
  simpl in *. specialize (Hd Hi).
  apply score_antitone; [done | lra].
Qed.

(** X2. [retrieve_documents] returns its results in non-increasing order of
    score. *)
Theorem retrieve_documents_ranked self query top_k res i j a b :
  retrieve_documents self query top_k = Ok res →
  res !! i = Some a → res !! j = Some b → i < j →
  (r_score b <= r_score a)%Q.
Proof.
  intros (found & Hfound & ->)%retrieve_documents_hits Ha Hb Hij.
  eapply (strongly_sorted_lookup (λ a b, (r_score b <= r_score a)%Q));
    [|exact Ha|exact Hb|exact Hij].
  eapply retrieved_scores_descend; [|apply search_ascending|exact Hfound].
  apply Forall_forall. intros h Hh. by eapply search_distance.
Qed.

Lemma retrieve_documents_ranked_witness :
  match retrieve_documents Fixture.kb "taco" 3 with
  | Ok (a :: b :: _) => (r_score b <= r_score a)%Q
  | _ => False
  end.
Proof.
  destruct (retrieve_documents Fixture.kb "taco" 3) as [[|a [|b res]]|] eqn:Hres;
    try (vm_compute in Hres; discriminate Hres).
  apply (retrieve_documents_ranked Fixture.kb "taco" 3 (a :: b :: res) 0 1 a b Hres);
    [reflexivity | reflexivity | lia].
Defined.

(** ** [search_menu_items] *)

(** X3. On a store whose tables are consistent and whose encoder has the
    dimension of the index, for every positive [top_k], [search_menu_items]
    retrieves [2 * top_k] candidates for its synthetic query and returns the
    first [top_k] menu items among them, in retrieval order. *)
Theorem search_menu_items_spec self query top_k :
  consistent self → same_dimension self → 0 < top_k →
  ∃ candidates,
    retrieve_documents self ("Menu item " +:+ query) (2 * top_k) = Ok candidates ∧
    search_menu_items self query top_k
      = Ok (take top_k (filter (λ doc, r_type doc = "menu_item") candidates)) ∧
    length candidates ≤ 2 * top_k ∧
    ∀ res, search_menu_items self query top_k = Ok res →
      length res ≤ top_k ∧ res `sublist_of` candidates ∧
      Forall (λ doc, r_type doc = "menu_item") res.
Proof.
  intros Hc Hd Hk.
  destruct (retrieve_documents_total self ("Menu item " +:+ query) (2 * top_k) Hc Hd)
    as [candidates Hcand]; [lia|].
  exists candidates. unfold search_menu_items.
  rewrite (Nat.mul_comm top_k 2), Hcand. simpl.
  repeat split; [by eapply retrieve_documents_length|..]; injection H as <-.
  - rewrite length_take. lia.
  - etrans; [apply sublist_take | apply sublist_filter].
  - apply Forall_forall. intros doc Hdoc.
    assert (doc ∈ filter (λ doc, r_type doc = "menu_item") candidates) as Hin
      by (eapply elem_of_sublist; [exact Hdoc | apply sublist_take]).
    by apply list_elem_of_filter in Hin as [? _].
Qed.

Lemma search_menu_items_spec_witness :
  ∃ candidates,
    retrieve_documents Fixture.kb ("Menu item " +:+ "taco") (2 * 1) = Ok candidates ∧
    search_menu_items Fixture.kb "taco" 1
      = Ok (take 1 (filter (λ doc, r_type doc = "menu_item") candidates)) ∧
    length candidates ≤ 2 * 1 ∧
    ∀ res, search_menu_items Fixture.kb "taco" 1 = Ok res →
      length res ≤ 1 ∧ res `sublist_of` candidates ∧
      Forall (λ doc, r_type doc = "menu_item") res.
Proof.
  apply (search_menu_items_spec Fixture.kb "taco" 1).
  - unfold consistent. compute_done.
  - intros query. reflexivity.
  - lia.
Defined.

(** ** An empty index *)

Lemma search_empty ix x k :
  Faiss.ntotal ix = 0 → Faiss.search_c ix x k = replicate k (Faiss.pad_distance, (-1)%Z).
Proof.
  unfold Faiss.search_c, Faiss.ranked, Faiss.ntotal. intros Hn.
  apply length_zero_iff_nil in Hn as ->. simpl.
  by rewrite take_nil, Nat.sub_0_r.
Qed.

Lemma retrieve_documents_empty self query top_k :
  Faiss.ntotal (index self) = 0 → same_dimension self → 0 < top_k →
  retrieve_documents self query top_k = Ok [].
Proof.
  intros Hn Hd Hk. apply retrieve_documents_ok.
  split; [apply Hd|]. split; [done|]. clear Hk.
  exists (replicate top_k None). rewrite search_empty by done.
  induction top_k as [|k [IH1 IH2]]; [by split; [constructor|]|].
  split; [by constructor|done].
Qed.

(** X4. When the index holds no vector and the encoder has the dimension of
    the index, every search of the retriever for a positive [top_k] returns
    the empty list and none raises, whatever the other tables hold. *)
Theorem empty_index_finds_nothing self query top_k :
  Faiss.ntotal (index self) = 0 → same_dimension self → 0 < top_k →
  retrieve_documents self query top_k = Ok [] ∧
  search_by_restaurant self query top_k = Ok [] ∧
  search_menu_items self query top_k = Ok [] ∧
  search_dietary_options self query top_k = Ok [] ∧
  retrieve_with_fallback self query top_k = Ok [].
Proof.
  intros Hn Hd Hk. split; [by apply retrieve_documents_empty|].
  unfold search_by_restaurant, search_menu_items, search_dietary_options,
    retrieve_with_fallback.
  rewrite !retrieve_documents_empty by (done || lia).
  cbv beta iota zeta delta [mbind result_bind filter_r].
  rewrite !filter_nil, !take_nil. repeat split.
  destruct (length [] <? top_k); [|by rewrite take_nil].
  destruct (key_terms query); [by rewrite take_nil|].
  rewrite retrieve_documents_empty by (done || simpl; lia).
  cbv beta iota. by rewrite filter_nil, app_nil_l, take_nil.
Qed.

Lemma empty_index_finds_nothing_witness :
  retrieve_documents (retriever Fixture.unindexed_bot) "taco" 5 = Ok [] ∧
  search_by_restaurant (retriever Fixture.unindexed_bot) "taco" 5 = Ok [] ∧
  search_menu_items (retriever Fixture.unindexed_bot) "taco" 5 = Ok [] ∧
  search_dietary_options (retriever Fixture.unindexed_bot) "taco" 5 = Ok [] ∧
  retrieve_with_fallback (retriever Fixture.unindexed_bot) "taco" 5 = Ok [].
Proof.
  apply (empty_index_finds_nothing (retriever Fixture.unindexed_bot) "taco" 5).
  - reflexivity.
  - intros query. reflexivity.
  - lia.
Defined.

(** ** [retrieve_with_fallback] without a second retrieval *)

(** X5. When the first retrieval already returns [top_k] results, or when the
    query consists of stopwords only, [retrieve_with_fallback] returns exactly
    the results of [retrieve_documents]; and when the first retrieval raises,
    it raises the same exception. *)
Theorem retrieve_with_fallback_same self query top_k :
  (∀ base, retrieve_documents self query top_k = Ok base →
     length base = top_k ∨ key_terms query = [] →
     retrieve_with_fallback self query top_k = Ok base) ∧
  (∀ e, retrieve_documents self query top_k = Raise e →
     retrieve_with_fallback self query top_k = Raise e).
Proof.
  split.
  - intros base Hbase Hcase.
    pose proof (retrieve_documents_length _ _ _ _ Hbase) as Hlen.
    unfold retrieve_with_fallback. rewrite Hbase.
    cbv beta iota zeta delta [mbind result_bind].
    destruct (Nat.ltb_spec (length base) top_k) as [Hlt|Hge].
    + destruct Hcase as [? | ->]; [lia|]. by rewrite take_ge.
    + by rewrite take_ge.
  - intros e He. unfold retrieve_with_fallback. by rewrite He.
Qed.

Lemma retrieve_with_fallback_same_witness :
  retrieve_with_fallback Fixture.kb "the menu of a restaurant" 5
  = retrieve_documents Fixture.kb "the menu of a restaurant" 5.
Proof.
  destruct (retrieve_documents Fixture.kb "the menu of a restaurant" 5)
    as [base|e] eqn:Hbase.
  - apply (proj1 (retrieve_with_fallback_same Fixture.kb
                    "the menu of a restaurant" 5) base Hbase).
    right. vm_compute. reflexivity.
  - apply (proj2 (retrieve_with_fallback_same Fixture.kb
                    "the menu of a restaurant" 5) e Hbase).
Defined.

(** ** The terms of the simplified query *)

Lemma lower_char_not_upper c : Py.isupper (Py.lower_char c) = false.
Proof. by destruct c as [[] [] [] [] [] [] [] []]. Qed.

Lemma lower_chars s :
  Forall (λ c, Py.isupper c = false) (list_ascii_of_string (Py.lower s)).
Proof.
  induction s as [|c s IH]; simpl; constructor; [apply lower_char_not_upper | done].
Qed.

Lemma split_aux_words (P : ascii → Prop) w s :
  Forall (λ c, P c ∧ Py.isspace c = false) w →
  Forall P (list_ascii_of_string s) →
  Forall (λ t, t ≠ "" ∧
               Forall (λ c, P c ∧ Py.isspace c = false) (list_ascii_of_string t))
    (Py.split_aux w s).
Proof.
  revert w. induction s as [|c s IH]; intros w Hw Hs; simpl.
  - destruct w as [|a w]; [constructor|]. repeat constructor.
    + intros Hnil. apply (f_equal list_ascii_of_string) in Hnil.
      rewrite list_ascii_of_string_of_list_ascii in Hnil.
      apply (f_equal length) in Hnil. rewrite length_rev in Hnil. done.
    + rewrite list_ascii_of_string_of_list_ascii. by apply Forall_rev.
  - simpl in Hs. apply Forall_cons in Hs as [Hc Hs].
    destruct (Py.isspace c) eqn:Hsp.
    + apply Forall_app. split; [|by apply IH].
      destruct w as [|a w]; [constructor|]. repeat constructor.
      * intros Hnil. apply (f_equal list_ascii_of_string) in Hnil.
        rewrite list_ascii_of_string_of_list_ascii in Hnil.
        apply (f_equal length) in Hnil. rewrite length_rev in Hnil. done.
      * rewrite list_ascii_of_string_of_list_ascii. by apply Forall_rev.
    + apply IH; [|done]. by constructor.
Qed.

(** X6. The terms that [retrieve_with_fallback] keeps for its simplified
    query are non-empty words without whitespace and without upper-case
    letters, and none of them is a stopword. *)
Theorem key_terms_are_words query :
  Forall (λ term,
            (term ∉ stopwords) ∧ term ≠ "" ∧
            Forall (λ c, Py.isupper c = false ∧ Py.isspace c = false)
                   (list_ascii_of_string term))
    (key_terms query).
Proof.
  unfold key_terms. apply Forall_forall. intros term Hterm.
  apply list_elem_of_filter in Hterm as [Hstop Hin]. split; [done|].
  pose proof (split_aux_words (λ c, Py.isupper c = false) [] (Py.lower query)
                (Forall_nil_2 (λ c, Py.isupper c = false ∧ Py.isspace c = false)) (lower_chars query)) as Hwords.
  rewrite Forall_forall in Hwords. by apply Hwords.
Qed.

Example key_terms_example :
  key_terms "What is on the MENU at  Taco Haven" = ["what"; "is"; "taco"; "haven"].
Proof. vm_compute. reflexivity. Qed.

(** ** [_clean_response] *)

Lemma collapse_spaces_spaced in_run s : spaced in_run (collapse_spaces in_run s).
Proof.
  revert in_run. induction s as [|c s IH]; intros in_run; simpl; [constructor|].
  destruct (Py.isspace c) eqn:Hc.
  - destruct in_run; [apply IH|]. constructor. apply IH.
  - constructor; [done | apply IH].
Qed.

Lemma spaced_weaken b s : spaced b s → spaced false s.
Proof. destruct 1; by constructor. Qed.

Lemma spaced_lstrip b s : spaced b s → spaced true (Py.lstrip s).
Proof.
  induction 1 as [b|s Hs IH|b c s Hc Hs IH]; simpl.
  - constructor.
  - done.
  - rewrite Hc. by constructor.
Qed.

Lemma spaced_lstrip_id s : spaced true s → Py.lstrip s = s.
Proof. inversion 1 as [| |b c s' Hc Hs]; subst; simpl; [done|]. by rewrite Hc. Qed.

Lemma spaced_rstrip b s : spaced b s → spaced b (Py.rstrip s).
Proof.
  induction 1 as [b|s Hs IH|b c s Hc Hs IH]; simpl.
  - constructor.
  - destruct (Py.rstrip s) as [|c' t] eqn:Ht; [constructor|].
    by constructor.
  - destruct (Py.rstrip s) as [|c' t] eqn:Ht.
    + rewrite Hc. constructor; [done | constructor].
    + by constructor.
Qed.

Lemma rstrip_idemp s : Py.rstrip (Py.rstrip s) = Py.rstrip s.
Proof.
  induction s as [|c s IH]; simpl; [done|].
  destruct (Py.rstrip s) as [|c' t] eqn:Ht.
  - destruct (Py.isspace c) eqn:Hc; simpl; [done|]. by rewrite Hc.
  - simpl in *. by rewrite IH.
Qed.

Lemma spaced_chars b s :
  spaced b s →
  Forall (λ c, Py.isspace c = true → c = " "%char) (list_ascii_of_string s).
Proof.
  induction 1 as [b|s Hs IH|b c s Hc Hs IH]; simpl; constructor; try done.
  congruence.
Qed.

Lemma startswith_space_nonspace c p s :
  Py.isspace c = false → Py.startswith (String " " p) (String c s) = false.
Proof.
  unfold Py.startswith. fold Py.startswith.
  destruct (Ascii.eqb_spec " " c) as [<-|]; [|done]. by intros [=].
Qed.

Lemma spaced_no_double b s : spaced b s → Py.contains "  " s = false.
Proof.
  induction 1 as [b|s Hs IH|b c s Hc Hs IH].
  - done.
  - change (Py.contains "  " (String " " s))
      with (Py.startswith " " s || Py.contains "  " s).
    rewrite IH, orb_false_r.
    inversion Hs as [| |b' c' s' Hc' Hs']; subst; [done|].
    by apply startswith_space_nonspace.
  - change (Py.contains "  " (String c s))
      with (Py.startswith "  " (String c s) || Py.contains "  " s).
    rewrite IH, orb_false_r. by apply startswith_space_nonspace.
Qed.

(** X7. The text that [_clean_response] returns has no whitespace other than
    single spaces between words: every whitespace character in it is a
    space, no two spaces are adjacent, and it neither begins nor ends with
    whitespace. *)
Theorem clean_response_single_spaced response :
  let cleaned := _clean_response response in
  Forall (λ c, Py.isspace c = true → c = " "%char) (list_ascii_of_string cleaned) ∧
  Py.contains "  " cleaned = false ∧
  Py.lstrip cleaned = cleaned ∧
  Py.rstrip cleaned = cleaned.
Proof.
  unfold _clean_response, Py.strip.
  set (text := match Re.drop_prefix "Answer:" response with
               | Some rest => Py.lstrip rest
               | None => response
               end).
  pose proof (spaced_rstrip _ _ (spaced_lstrip _ _
                (collapse_spaces_spaced false text))) as Hs.
  simpl. split; [by eapply spaced_chars|]. split; [by eapply spaced_no_double|].
  split; [by apply spaced_lstrip_id | apply rstrip_idemp].
Qed.

(** * Further properties of the generator and of the chatbot *)

(** ** The history window of [create_prompt] *)

Lemma last_n_length {A} n (l : list A) : length (last_n n l) = min n (length l).
Proof. unfold last_n. rewrite length_drop. lia. Qed.

Lemma last_n_idemp {A} n (l : list A) : last_n n (last_n n l) = last_n n l.
Proof.
  unfold last_n at 1. rewrite last_n_length.
  by replace (min n (length l) - n) with 0 by lia.
Qed.

Lemma last_n_snoc {A} n (l : list A) x : last_n (S n) (l ++ [x]) = last_n n l ++ [x].
Proof.
  unfold last_n. rewrite length_app. simpl.
  replace (length l + 1 - S n) with (length l - n) by lia.
  by rewrite drop_app_le by lia.
Qed.

Lemma history_text_window h : history_text (Some h) = history_text (Some (last_n 3 h)).
Proof.
  destruct h as [|m h]; [done|].
  destruct (last_n 3 (m :: h)) as [|m' h'] eqn:Hlast.
  - apply (f_equal length) in Hlast. rewrite last_n_length in Hlast.
    simpl in Hlast. lia.
  - unfold history_text. by rewrite <- Hlast, last_n_idemp.
Qed.

Lemma create_prompt_history query documents h1 h2 :
  history_text h1 = history_text h2 →
  create_prompt query documents h1 = create_prompt query documents h2.
Proof. intros Heq. unfold create_prompt. by rewrite Heq. Qed.

(** X8. The prompt of [create_prompt] depends on the chat history only
    through its last three messages; an empty history and no history give the
    same prompt. *)
Theorem create_prompt_window query documents h :
  create_prompt query documents (Some h)
    = create_prompt query documents (Some (last_n 3 h)) ∧
  create_prompt query documents (Some []) = create_prompt query documents None.
Proof.
  split; [|done]. apply create_prompt_history, history_text_window.
Qed.

(** ** What a turn reads of the history *)

Lemma answer_query_history g query documents h1 h2 :
  last_n 3 h1 = last_n 3 h2 →
  answer_query g query documents (Some h1) = answer_query g query documents (Some h2).
Proof.
  intros Heq. unfold answer_query.
  by rewrite (create_prompt_history _ _ (Some h1) (Some h2))
    by (by rewrite (history_text_window h1), (history_text_window h2), Heq).
Qed.

Lemma respond_history s1 s2 query :
  retriever s1 = retriever s2 →
  response_generator s1 = response_generator s2 →
  last_n 3 (chat_history s1) = last_n 3 (chat_history s2) →
  respond s1 query = respond s2 query.
Proof.
  intros Hr Hg Hh. unfold respond.
  rewrite (detect_intent_retriever s1 s2) by done. rewrite <- Hr, <- Hg.
  assert (∀ documents,
            answer_query (response_generator s1) query documents (Some (chat_history s1))
            = answer_query (response_generator s1) query documents (Some (chat_history s2)))
    as Hq by (intros; by apply answer_query_history).
  destruct (_detect_intent s2 query) as [[names|p|q|name|q]|e]; [..|done];
    rewrite !traced_bind_lift_ok; cbv beta iota; [done|..];
    rewrite !traced_bind_emit.
  - destruct (search_dietary_options (retriever s1) p 10) as [[|d docs]|]; [done| |done].
    rewrite !traced_bind_lift_ok. cbv beta iota. by rewrite Hq.
  - destruct (search_menu_items (retriever s1) query 10) as [[|d docs]|]; [| |done].
    + rewrite !traced_bind_lift_ok. cbv beta iota. rewrite ?traced_bind_emit.
      destruct (retrieve_with_fallback (retriever s1) query 5) as [docs|]; [|done].
      rewrite !traced_bind_lift_ok. by rewrite Hq.
    + rewrite !traced_bind_lift_ok. cbv beta iota. by rewrite Hq.
  - destruct (search_by_restaurant (retriever s1) name 10) as [[|d docs]|]; [done| |done].
    rewrite !traced_bind_lift_ok. cbv beta iota. by rewrite Hq.
  - destruct (retrieve_with_fallback (retriever s1) query 5) as [[|d docs]|]; [done| |done].
    rewrite !traced_bind_lift_ok. cbv beta iota. by rewrite Hq.
Qed.

(** X9. A turn reads the history only through its last two messages: two
    chatbots with the same retriever and generator whose histories end in the
    same two messages make the same calls, send the same prompt and give the
    same response to a query. *)
Theorem answer_reads_last_two c1 c2 query :
  retriever c1 = retriever c2 →
  response_generator c1 = response_generator c2 →
  last_n 2 (chat_history c1) = last_n 2 (chat_history c2) →
  (answer c1 query).2 = (answer c2 query).2.
Proof.
  intros Hr Hg Hh. rewrite !answer_turn.
  apply respond_history; [done..|]. simpl. by rewrite !last_n_snoc, Hh.
Qed.

Lemma answer_reads_last_two_witness :
  (answer (add_message_to_history
             (add_message_to_history
                (add_message_to_history Fixture.bot "user" "hi") "assistant" "hello")
             "user" "any tacos?") "Any vegan burger?").2
  = (answer (add_message_to_history
               (add_message_to_history Fixture.bot "assistant" "hello")
               "user" "any tacos?") "Any vegan burger?").2.
Proof.
  apply answer_reads_last_two; reflexivity.
Defined.

(** ** The calls of a turn *)

Lemma pipeline_prompts_app t1 t2 :
  pipeline_prompts (t1 ++ t2) = pipeline_prompts t1 ++ pipeline_prompts t2.
Proof. unfold pipeline_prompts. apply omap_app. Qed.

Lemma pipeline_prompts_bind {A B} (m : traced A) (f : A → traced B) n :
  (∀ a, length (pipeline_prompts (trace (f a))) ≤ n) →
  length (pipeline_prompts (trace (m ≫= f)))
    ≤ length (pipeline_prompts (trace m)) + n.
Proof.
  intros Hf. unfold mbind, traced_bind. destruct (outcome m) as [a|e]; simpl.
  - rewrite pipeline_prompts_app, length_app. specialize (Hf a). lia.
  - lia.
Qed.

Lemma generate_response_prompts g prompt :
  length (pipeline_prompts (trace (generate_response g prompt))) ≤ 1.
Proof.
  unfold generate_response. rewrite traced_bind_emit. simpl.
  unfold mbind, traced_bind. by destruct (generator g prompt).
Qed.

Lemma answer_query_prompts g query documents h :
  length (pipeline_prompts (trace (answer_query g query documents h))) ≤ 1.
Proof.
  unfold answer_query. rewrite traced_bind_emit. simpl.
  etrans; [apply (pipeline_prompts_bind _ _ 1)|by destruct (create_prompt _ _ _)].
  intros prompt. apply generate_response_prompts.
Qed.

Lemma handle_no_results_prompts g query :
  length (pipeline_prompts (trace (handle_no_results g query))) ≤ 1.
Proof.
  unfold handle_no_results. rewrite traced_bind_emit. simpl.
  apply generate_response_prompts.
Qed.

Lemma generate_comparison_prompts g query restaurant_docs :
  length (pipeline_prompts (trace (generate_comparison g query restaurant_docs))) ≤ 1.
Proof.
  unfold generate_comparison. rewrite traced_bind_emit. simpl.
  etrans; [apply (pipeline_prompts_bind _ _ 1)|by destruct (comparison_prompt _ _)].
  intros prompt. apply generate_response_prompts.
Qed.

Lemma collect_restaurant_docs_prompts r restaurants acc :
  pipeline_prompts (trace (collect_restaurant_docs r restaurants acc)) = [].
Proof.
  revert acc. induction restaurants as [|name rest IH]; intros acc; [done|].
  cbn [collect_restaurant_docs]. rewrite traced_bind_emit.
  cbn [trace pipeline_prompts omap list_omap].
  unfold mbind at 1, traced_bind at 1.
  destruct (search_by_restaurant r name 10) as [docs|e]; [|done].
  cbn [lift trace outcome app]. apply IH.
Qed.

Lemma lookup_step_prompts {A} (call : retriever_call) (found : result A)
    (f : A → traced string) :
  (∀ a, length (pipeline_prompts (trace (f a))) ≤ 1) →
  length (pipeline_prompts
            (trace (_ ← emit (Retriever call); a ← lift found; f a))) ≤ 1.
Proof.
  intros Hf. rewrite traced_bind_emit. simpl.
  etrans; [apply (pipeline_prompts_bind _ _ 1); exact Hf|cbn; lia].
Qed.

(** X10. A turn calls the text-generation pipeline at most once. *)
Theorem answer_calls_pipeline_once self query :
  length (pipeline_prompts (trace (answer self query).2)) ≤ 1.
Proof.
  rewrite answer_turn. unfold respond.
  etrans; [apply (pipeline_prompts_bind _ _ 1)|cbn; lia].
  intros [restaurants|preference|q|restaurant|q].
  - etrans; [apply (pipeline_prompts_bind _ _ 1)|].
    + intros docs. apply generate_comparison_prompts.
    + rewrite collect_restaurant_docs_prompts. cbn. lia.
  - apply lookup_step_prompts. intros [|d docs]; [cbn; lia|apply answer_query_prompts].
  - apply lookup_step_prompts. intros [|d docs]; [|apply answer_query_prompts].
    apply lookup_step_prompts. intros docs. apply answer_query_prompts.
  - apply lookup_step_prompts. intros [|d docs]; [cbn; lia|apply answer_query_prompts].
  - apply lookup_step_prompts.
    intros [|d docs]; [apply handle_no_results_prompts|apply answer_query_prompts].
Qed.

(** * Further properties of [_detect_intent] *)

(** X12. The classification reads the query only in lower case: two queries
    that differ in case only get the same intent, up to the raw query that
    the menu-item and generic intents carry, and so the same intent type. *)
Theorem detect_intent_case_insensitive self q1 q2 :
  Py.lower q1 = Py.lower q2 →
  _detect_intent self q2
    = (intent ← _detect_intent self q1; Ok (with_query q2 intent)) ∧
  ∀ i1 i2, _detect_intent self q1 = Ok i1 → _detect_intent self q2 = Ok i2 →
           intent_type i1 = intent_type i2.
Proof.
  intros Hlow.
  assert (_detect_intent self q2
          = (intent ← _detect_intent self q1; Ok (with_query q2 intent))) as Heq.
  { unfold _detect_intent. cbv zeta. rewrite Hlow.
    destruct (comparison_branch self (Py.lower q2)) as [[intent|]|e] eqn:Hcmp;
      cbv beta iota delta [mbind result_bind]; [|..|done].
    - unfold comparison_branch in Hcmp.
      destruct (re_found comparison_re _); [|done].
      destruct (extract_restaurant_names _ _); [|done].
      cbv beta iota delta [mbind result_bind] in Hcmp.
      destruct (2 <=? _); [|done]. by injection Hcmp as <-.
    - destruct (List.find _ dietary_terms); [done|].
      destruct (re_found menu_re _); [done|].
      destruct (re_found restaurant_re _); [|done].
      by destruct (first_known_name_in _ _) as [[name|]|]. }
  split; [done|]. intros i1 i2 H1 H2. rewrite H1 in Heq.
  cbv beta iota delta [mbind result_bind] in Heq.
  rewrite H2 in Heq. injection Heq as ->. by destruct i1.
Qed.

Lemma detect_intent_case_insensitive_witness :
  _detect_intent Fixture.bot "WHERE is the taco haven LOCATION"
  = (intent ← _detect_intent Fixture.bot "Where is the Taco Haven location";
     Ok (with_query "WHERE is the taco haven LOCATION" intent)).
Proof.
  apply (detect_intent_case_insensitive Fixture.bot
           "Where is the Taco Haven location" "WHERE is the taco haven LOCATION").
  vm_compute. reflexivity.
Defined.

Lemma first_known_name_found docs query_lower name :
  first_known_name_in docs query_lower = Ok (Some name) →
  ∃ doc, doc ∈ docs ∧ d_type doc = "restaurant" ∧
         d_metadata doc !! "name" = Some name ∧
         Py.contains (Py.lower name) query_lower = true.
Proof.
  induction docs as [|doc docs IH]; simpl; [done|].
  destruct (String.eqb_spec (d_type doc) "restaurant") as [Hty|_].
  - unfold getitem. destruct (d_metadata doc !! "name") as [n|] eqn:Hn; [|done].
    cbv beta iota delta [mbind result_bind].
    destruct (Py.contains (Py.lower n) query_lower) eqn:Hc.
    + intros [= <-]. exists doc. by repeat split; [left|..].
    + intros (doc' & ? & ?)%IH. exists doc'. by split; [right|].
  - intros (doc' & ? & ?)%IH. exists doc'. by split; [right|].
Qed.

Lemma known_names_found docs query_lower names :
  known_names_in docs query_lower = Ok names →
  Forall (λ name, ∃ doc, doc ∈ docs ∧ d_type doc = "restaurant" ∧
                         d_metadata doc !! "name" = Some name ∧
                         Py.contains (Py.lower name) query_lower = true) names.
Proof.
  revert names. induction docs as [|doc docs IH]; intros names; simpl.
  - intros [= <-]. constructor.
  - assert (∀ names', known_names_in docs query_lower = Ok names' →
              Forall (λ name, ∃ doc0, doc0 ∈ doc :: docs ∧ d_type doc0 = "restaurant" ∧
                                d_metadata doc0 !! "name" = Some name ∧
                                Py.contains (Py.lower name) query_lower = true) names')
      as IH'.
    { intros names' H. eapply Forall_impl; [by apply IH|].
      intros name (doc' & ? & ?). exists doc'. by split; [right|]. }
    destruct (String.eqb_spec (d_type doc) "restaurant") as [Hty|_]; [|apply IH'].
    unfold getitem. destruct (d_metadata doc !! "name") as [n|] eqn:Hn; [|done].
    cbv beta iota delta [mbind result_bind].
    destruct (known_names_in docs query_lower) as [names'|]; [|done].
    destruct (Py.contains (Py.lower n) query_lower) eqn:Hc; intros [= <-].
    + constructor; [|by apply IH'].
      exists doc. by repeat split; [left|..].
    + by apply IH'.
Qed.

(** X13. The payload of the intent that [_detect_intent] returns: a
    comparison carries at least two names, which, when the query has no
    "between X and Y", are stored restaurant names that occur in the query; a
    dietary intent carries a term of the vocabulary that occurs in the query;
    a restaurant-info intent carries the stored name of a restaurant that
    occurs in the query; the menu-item and generic intents carry the raw
    query. *)
Theorem detect_intent_payload self query intent :
  _detect_intent self query = Ok intent →
  match intent with
  | Comparison names =>
      2 ≤ length names ∧
      (Re.search between_re (Py.lower query) = None →
       Forall (known_restaurant_in self (Py.lower query)) names)
  | Dietary term =>
      term ∈ dietary_terms ∧ Py.contains term (Py.lower query) = true
  | RestaurantInfo name => known_restaurant_in self (Py.lower query) name
  | MenuItem q | Generic q => q = query
  end.
Proof.
  unfold _detect_intent. cbv zeta. intros H.
  apply bind_ok in H as ([cmp|] & Hcmp & H).
  - injection H as <-.
    apply comparison_branch_some in Hcmp as (names & -> & _ & Hnames & Hlen).
    split; [done|]. intros Hnone. unfold extract_restaurant_names in Hnames.
    rewrite Hnone in Hnames. by apply known_names_found.
  - destruct (List.find _ dietary_terms) as [term|] eqn:Hfind.
    { injection H as <-. apply find_some in Hfind as [Hin Hc].
      split; [by apply list_elem_of_In | done]. }
    destruct (re_found menu_re _); [by injection H as <-|].
    apply bind_ok in H as ([name|] & Hknown & H); injection H as <-; [|done].
    destruct (re_found restaurant_re _); [|done].
    by apply first_known_name_found.
Qed.

Lemma detect_intent_payload_witness :
  known_restaurant_in Fixture.bot (Py.lower "Where is the Taco Haven location")
    "Taco Haven".
Proof.
  apply (detect_intent_payload Fixture.bot "Where is the Taco Haven location"
           (RestaurantInfo "Taco Haven")).
  vm_compute. reflexivity.
Defined.

Lemma first_known_name_total docs query_lower :
  restaurants_named docs → ∃ found, first_known_name_in docs query_lower = Ok found.
Proof.
  induction 1 as [|doc docs Hdoc _ IH]; simpl; [by eexists|].
  destruct (String.eqb_spec (d_type doc) "restaurant") as [Hty|_]; [|done].
  destruct (Hdoc Hty) as [n Hn]. unfold getitem. rewrite Hn.
  cbv beta iota delta [mbind result_bind].
  destruct (Py.contains _ _); [by eexists | done].
Qed.

Lemma known_names_total docs query_lower :
  restaurants_named docs → ∃ names, known_names_in docs query_lower = Ok names.
Proof.
  induction 1 as [|doc docs Hdoc _ [names IH]]; simpl; [by eexists|].
  destruct (String.eqb_spec (d_type doc) "restaurant") as [Hty|_]; [|by eexists].
  destruct (Hdoc Hty) as [n Hn]. unfold getitem. rewrite Hn, IH.
  cbv beta iota delta [mbind result_bind]. by eexists.
Qed.

Lemma detect_intent_returns self query :
  restaurants_named (documents (retriever self)) →
  ∃ intent, _detect_intent self query = Ok intent.
Proof.
  intros Hnamed. unfold _detect_intent, comparison_branch, extract_restaurant_names.
  cbv zeta.
  destruct (known_names_total _ (Py.lower query) Hnamed) as [names Hnames].
  destruct (first_known_name_total _ (Py.lower query) Hnamed) as [found Hfound].
  assert (∃ cmp, (if re_found comparison_re (Py.lower query)
                  then restaurant_names ←
                         match Re.search between_re (Py.lower query) with
                         | Some m => Ok [Py.strip (Re.group 1 m); Py.strip (Re.group 2 m)]
                         | None => known_names_in (documents (retriever self))
                                     (Py.lower query)
                         end;
                       if 2 <=? length restaurant_names
                       then Ok (Some (Comparison restaurant_names)) else Ok None
                  else Ok None) = Ok cmp) as [cmp ->].
  { destruct (re_found comparison_re _); [|by eexists].
    destruct (Re.search between_re _); [|rewrite Hnames];
      cbv beta iota delta [mbind result_bind]; destruct (2 <=? _); by eexists. }
  cbv beta iota delta [mbind result_bind].
  destruct cmp; [by eexists|].
  destruct (List.find _ _); [by eexists|].
  destruct (re_found menu_re _); [by eexists|].
  destruct (re_found restaurant_re _); [rewrite Hfound|]; [destruct found|]; by eexists.
Qed.

(** X14. When every restaurant document of the store has a name,
    [_detect_intent] returns an intent for every query; it never raises. *)
Theorem detect_intent_total self query :
  restaurants_named (documents (retriever self)) →
  ∃ intent, _detect_intent self query = Ok intent.
Proof. intros Hnamed. by apply detect_intent_returns. Qed.

Lemma detect_intent_total_witness :
  ∃ intent, _detect_intent Fixture.bot "compare Taco Haven" = Ok intent.
Proof.
  apply (detect_intent_total Fixture.bot "compare Taco Haven").
  repeat apply Forall_cons_2; [..|apply Forall_nil_2]; intros _; vm_compute; eauto.
Defined.

Example detect_intent_nameless_restaurant :
  _detect_intent
    {| retriever :=
         Fixture.build [{| d_id := "restaurant_0"; d_type := "restaurant";
                           d_content := ""; d_metadata := ∅ |}];
       response_generator := Fixture.echo; chat_history := [] |}
    "compare the two"
  = Raise (KeyError "name").
Proof. vm_compute. reflexivity. Qed.

(** * Further properties of the comparison path *)

Lemma dict_set_keys {V} (d : list (string * V)) k v :
  (dict_set d k v).*1 = if decide (k ∈ d.*1) then d.*1 else d.*1 ++ [k].
Proof.
  induction d as [|[k' v'] d IH]; csimpl; [done|].
  destruct (String.eqb_spec k' k) as [->|Hne]; csimpl.
  - rewrite decide_True by left. done.
  - rewrite IH. destruct (decide (k ∈ d.*1)) as [Hin|Hout].
    + rewrite decide_True by (by right). done.
    + rewrite decide_False; [done|]. by intros [?|?]%elem_of_cons.
Qed.

Lemma dict_set_entries {V} (P : string * V → Prop) (d : list (string * V)) k v :
  Forall P d → P (k, v) → Forall P (dict_set d k v).
Proof.
  intros Hd Hkv. induction Hd as [|[k' v'] d Hx Hd IH]; simpl.
  - by repeat constructor.
  - destruct (String.eqb_spec k' k) as [->|Hne]; by constructor.
Qed.

Lemma collect_restaurant_docs_ok r restaurants acc d :
  outcome (collect_restaurant_docs r restaurants acc) = Ok d →
  trace (collect_restaurant_docs r restaurants acc)
    = (λ name, Retriever (SearchByRestaurant name 10)) <$> restaurants ∧
  (NoDup acc.*1 → NoDup d.*1) ∧
  (∀ name, name ∈ d.*1 ↔ name ∈ acc.*1 ∨ name ∈ restaurants) ∧
  (Forall (λ entry, search_by_restaurant r entry.1 10 = Ok entry.2) acc →
   Forall (λ entry, search_by_restaurant r entry.1 10 = Ok entry.2) d) ∧
  (NoDup restaurants → (∀ name, name ∈ restaurants → name ∉ acc.*1) →
   d.*1 = acc.*1 ++ restaurants).
Proof.
  revert acc. induction restaurants as [|name rest IH]; intros acc.
  - simpl. intros [= <-]. rewrite app_nil_r. repeat split; try done.
    + by left.
    + intros [?|?]; [done|]. by apply elem_of_nil in H.
  - cbn [collect_restaurant_docs]. rewrite traced_bind_emit.
    cbn [trace outcome]. unfold mbind at 1 2, traced_bind at 1 2.
    destruct (search_by_restaurant r name 10) as [docs|e] eqn:Hdocs;
      cbn [lift trace outcome app]; [|done].
    intros Hd. destruct (IH _ Hd) as (Htrace & Hnodup & Hkeys & Hvals & Horder).
    rewrite dict_set_keys in Hnodup, Hkeys, Horder.
    split; [by rewrite Htrace|]. split; [|split; [|split]].
    + intros Hacc. apply Hnodup. destruct (decide (name ∈ acc.*1)); [done|].
      apply NoDup_app. repeat split; [done| |apply NoDup_singleton].
      by intros x Hx ->%list_elem_of_singleton.
    + intros x. rewrite Hkeys. destruct (decide (name ∈ acc.*1)) as [Hin|Hout].
      * rewrite elem_of_cons. split; [tauto|]. intros [?|[Heq|?]]; [tauto| |tauto].
        subst x. tauto.
      * rewrite elem_of_app, list_elem_of_singleton, elem_of_cons. tauto.
    + intros Hacc. apply Hvals. by apply dict_set_entries.
    + intros [Hfresh Hrest]%NoDup_cons Hdisj.
      assert (name ∉ acc.*1) as Hout by (apply Hdisj; by left).
      rewrite decide_False in Horder by done.
      rewrite Horder, <- app_assoc; [done..|].
      intros x Hx [?|Heq%list_elem_of_singleton]%elem_of_app; [|by subst x].
      eapply Hdisj; [by right|done].
Qed.

(** X15. The loop of [answer] that collects the documents of a comparison
    calls [search_by_restaurant] once for every extracted name, in order.
    When none of the calls raises, the dictionary has one entry per distinct
    name, each holding the search result of its name; for names that are
    all different the entries come in the order of the names. *)
Theorem comparison_collects_per_name r restaurants d :
  outcome (collect_restaurant_docs r restaurants []) = Ok d →
  trace (collect_restaurant_docs r restaurants [])
    = (λ name, Retriever (SearchByRestaurant name 10)) <$> restaurants ∧
  NoDup d.*1 ∧
  (∀ name, name ∈ d.*1 ↔ name ∈ restaurants) ∧
  Forall (λ entry, search_by_restaurant r entry.1 10 = Ok entry.2) d ∧
  (NoDup restaurants → d.*1 = restaurants).
Proof.
  intros Hd.
  destruct (collect_restaurant_docs_ok _ _ _ _ Hd)
    as (Htrace & Hnodup & Hkeys & Hvals & Horder).
  split; [done|]. split; [apply Hnodup; constructor|]. split; [|split].
  - intros name. rewrite Hkeys. split; [|tauto].
    intros [Hnil|?]; [by apply elem_of_nil in Hnil | done].
  - apply Hvals. constructor.
  - intros Hnd. apply Horder; [done|]. intros name _ Hnil.
    by apply elem_of_nil in Hnil.
Qed.

Lemma comparison_collects_per_name_witness :
  ∃ d, outcome (collect_restaurant_docs Fixture.kb
                  ["Taco Haven"; "Burger Joint"; "Taco Haven"] []) = Ok d ∧
       NoDup d.*1 ∧
       (∀ name, name ∈ d.*1 ↔ name ∈ ["Taco Haven"; "Burger Joint"; "Taco Haven"]).
Proof.
  destruct (outcome (collect_restaurant_docs Fixture.kb
                       ["Taco Haven"; "Burger Joint"; "Taco Haven"] []))
    as [d|e] eqn:Hd; [|vm_compute in Hd; discriminate Hd].
  exists d. split; [done|].
  destruct (comparison_collects_per_name Fixture.kb
              ["Taco Haven"; "Burger Joint"; "Taco Haven"] d Hd)
    as (_ & Hnodup & Hkeys & _).
  by split.
Defined.

(** X16. The block of one restaurant in the comparison prompt starts with
    the header of the restaurant and has at most eight lines: the header, at
    most one line of special features, the line "Menu Items:" and at most
    five menu items. It is built whenever the first five menu items have a
    name, whatever the later ones hold, and a restaurant without documents
    gets the header alone. *)
Theorem comparison_block_shape restaurant_name docs :
  (Forall (λ item, is_Some (r_metadata item !! "name"))
     (take 5 (filter (λ doc, r_type doc = "menu_item") docs)) →
   ∃ block, comparison_block (restaurant_name, docs) = Ok block) ∧
  (∀ block, comparison_block (restaurant_name, docs) = Ok block →
     head block = Some (Py.nl +:+ "--- " +:+ restaurant_name +:+ " ---") ∧
     length block ≤ 8) ∧
  comparison_block (restaurant_name, [])
    = Ok [Py.nl +:+ "--- " +:+ restaurant_name +:+ " ---"].
Proof.
  split; [|split; [|done]].
  - intros Hnames. unfold comparison_block.
    destruct (filter (λ doc, r_type doc = "menu_item") docs) as [|item items];
      [by eexists|].
    destruct (for_each_total item_text (take 5 (item :: items))) as [lines Hlines].
    + eapply Forall_impl; [exact Hnames|]. intros it [n Hn].
      unfold item_text, getitem. rewrite Hn. by eexists.
    + rewrite Hlines. by eexists.
  - intros block. unfold comparison_block.
    set (features := match filter (λ doc, r_type doc = "restaurant") docs with
                     | [] => []
                     | first :: _ =>
                         optional_line (r_metadata first) "Special Features: "
                           "special_features"
                     end).
    assert (length features ≤ 1) as Hfeat.
    { unfold features, optional_line.
      destruct (filter _ docs); [simpl; lia|]. destruct (get_truthy _ _); simpl; lia. }
    destruct (filter (λ doc, r_type doc = "menu_item") docs) as [|item items].
    + intros [= <-]. split; [done|]. simpl. rewrite ?length_app. simpl. lia.
    + intros H. apply bind_ok in H as (lines & Hlines & [= <-]).
      apply bind_ok in Hlines as (texts & Htexts & [= <-]).
      apply for_each_length in Htexts. rewrite length_take in Htexts.
      split; [done|]. simpl. rewrite ?length_app. simpl. lia.
Qed.

Lemma comparison_block_shape_witness :
  ∃ block, comparison_block
             ("Burger Joint",
              [Fixture.tie_restaurant; Fixture.tie_menu_item]) = Ok block.
Proof.
  apply (comparison_block_shape "Burger Joint"
           [Fixture.tie_restaurant; Fixture.tie_menu_item]).
  repeat constructor. vm_compute. eauto.
Defined.

(** * Further properties of the context block *)

Lemma append_assoc (a b c : string) : (a +:+ b) +:+ c = a +:+ (b +:+ c).
Proof.
  induction a as [|x a IH]; [done|].
  change (String x ((a +:+ b) +:+ c) = String x (a +:+ b +:+ c)). by f_equal.
Qed.

Lemma append_empty_r (a : string) : a +:+ "" = a.
Proof.
  induction a as [|x a IH]; [done|].
  change (String x (a +:+ "") = String x a). by f_equal.
Qed.

(** X17. In the block of a document, every optional field that is present
    and not empty has its line: the label followed by the value (for the
    address, followed by the city and the state). *)
Theorem present_fields_rendered doc block label key value :
  context_block doc = Ok block →
  (label, key) ∈ optional_fields (r_type doc) →
  get_truthy (r_metadata doc) key = Some value →
  ∃ line, line ∈ block ∧ Py.startswith (label +:+ value) line = true.
Proof.
  unfold context_block, optional_fields, optional_line.
  destruct (String.eqb (r_type doc) "restaurant");
    [|destruct (String.eqb (r_type doc) "menu_item")].
  - intros Hblock Hfield Hsome.
    apply bind_ok in Hblock as (name & _ & Hblock).
    apply bind_ok in Hblock as (address_line & Haddr & [= <-]).
    repeat (apply elem_of_cons in Hfield as [[= -> ->]|Hfield]);
      [..|by apply elem_of_nil in Hfield]; rewrite Hsome in *; cbv beta iota.
    + apply bind_ok in Haddr as (city & _ & Haddr).
      apply bind_ok in Haddr as (state & _ & [= <-]).
      exists ("Address: " +:+ value +:+ ", " +:+ city +:+ ", " +:+ state).
      split; [set_solver|]. apply startswith_spec.
      exists (", " +:+ city +:+ ", " +:+ state). by rewrite append_assoc.
    + exists ("Hours: " +:+ value). split; [set_solver|].
      apply startswith_spec. exists "". by rewrite append_empty_r.
    + exists ("Special Features: " +:+ value). split; [set_solver|].
      apply startswith_spec. exists "". by rewrite append_empty_r.
    + exists ("Contact: " +:+ value). split; [set_solver|].
      apply startswith_spec. exists "". by rewrite append_empty_r.
  - intros Hblock Hfield Hsome.
    apply bind_ok in Hblock as (restaurant & _ & Hblock).
    apply bind_ok in Hblock as (name & _ & [= <-]).
    repeat (apply elem_of_cons in Hfield as [[= -> ->]|Hfield]);
      [..|by apply elem_of_nil in Hfield]; rewrite Hsome; cbv beta iota.
    + exists ("Price: " +:+ value). split; [set_solver|].
      apply startswith_spec. exists "". by rewrite append_empty_r.
    + exists ("Description: " +:+ value). split; [set_solver|].
      apply startswith_spec. exists "". by rewrite append_empty_r.
    + exists ("Section: " +:+ value). split; [set_solver|].
      apply startswith_spec. exists "". by rewrite append_empty_r.
    + exists ("Dietary Info: " +:+ value). split; [set_solver|].
      apply startswith_spec. exists "". by rewrite append_empty_r.
  - intros _ Hfield. by apply elem_of_nil in Hfield.
Qed.

Lemma present_fields_rendered_witness :
  ∃ line, line ∈ [ "Restaurant Information - Taco Haven:"; "Contact: 555-0101"; "" ] ∧
          Py.startswith ("Contact: " +:+ "555-0101") line = true.
Proof.
  apply (present_fields_rendered
           {| r_id := "restaurant_1"; r_score := 1%Q; r_content := "";
              r_metadata := d_metadata Fixture.taco_haven; r_type := "restaurant" |}
           _ "Contact: " "phone" "555-0101").
  - vm_compute. reflexivity.
  - vm_compute. set_solver.
  - vm_compute. reflexivity.
Defined.

(** * The assertions of the index search *)

(** X21. Every search of the retriever raises [AssertionError] when it is
    asked for no result ([top_k = 0]) or when the vectors of the encoder do
    not have the dimension of the index, whatever the store holds. *)
Theorem searches_assert self query top_k :
  top_k = 0 ∨ (∀ q, length (query_to_embedding self q) ≠ Faiss.d (index self)) →
  retrieve_documents self query top_k = Raise AssertionError ∧
  search_by_restaurant self query top_k = Raise AssertionError ∧
  search_menu_items self query top_k = Raise AssertionError ∧
  search_dietary_options self query top_k = Raise AssertionError ∧
  retrieve_with_fallback self query top_k = Raise AssertionError.
Proof.
  intros H.
  assert (∀ q k, (top_k = 0 → k = 0) →
            retrieve_documents self q k = Raise AssertionError) as Hraise.
  { intros q k Hk. apply retrieve_documents_asserts.
    destruct H as [->|H]; [right; by apply Hk | left; apply H]. }
  unfold search_by_restaurant, search_menu_items, search_dietary_options,
    retrieve_with_fallback. cbv zeta.
  rewrite !Hraise by lia. done.
Qed.

Lemma searches_assert_witness :
  retrieve_documents Fixture.kb "taco" 0 = Raise AssertionError ∧
  search_by_restaurant Fixture.kb "taco" 0 = Raise AssertionError ∧
  search_menu_items Fixture.kb "taco" 0 = Raise AssertionError ∧
  search_dietary_options Fixture.kb "taco" 0 = Raise AssertionError ∧
  retrieve_with_fallback Fixture.kb "taco" 0 = Raise AssertionError.
Proof.
  apply (searches_assert Fixture.kb "taco" 0). by left.
Defined.

(** * The knowledge-base builder *)

(** ** The documents of the two tables *)

Lemma create_restaurant_documents_snoc rows row :
  create_restaurant_documents (rows ++ [row])
  = create_restaurant_documents rows
      ++ [restaurant_doc (create_restaurant_documents rows) row].
Proof. unfold create_restaurant_documents. by rewrite foldl_snoc. Qed.

Lemma create_menu_item_documents_snoc rows row :
  create_menu_item_documents (rows ++ [row])
  = create_menu_item_documents rows
      ++ [menu_item_doc (create_menu_item_documents rows) row].
Proof. unfold create_menu_item_documents. by rewrite foldl_snoc. Qed.

Lemma create_restaurant_documents_length rows :
  length (create_restaurant_documents rows) = length rows.
Proof.
  induction rows as [|row rows IH] using rev_ind; [done|].
  rewrite create_restaurant_documents_snoc, !length_app, IH. done.
Qed.

Lemma create_menu_item_documents_length rows :
  length (create_menu_item_documents rows) = length rows.
Proof.
  induction rows as [|row rows IH] using rev_ind; [done|].
  rewrite create_menu_item_documents_snoc, !length_app, IH. done.
Qed.

Lemma create_restaurant_documents_ids rows :
  d_id <$> create_restaurant_documents rows
  = (λ i : nat, "restaurant_" +:+ pretty i) <$> seq 0 (length rows).
Proof.
  induction rows as [|row rows IH] using rev_ind; [done|].
  rewrite create_restaurant_documents_snoc, length_app, seq_app, !fmap_app, IH.
  simpl. by rewrite create_restaurant_documents_length.
Qed.

Lemma create_menu_item_documents_ids rows :
  d_id <$> create_menu_item_documents rows
  = (λ i : nat, "menu_item_" +:+ pretty i) <$> seq 0 (length rows).
Proof.
  induction rows as [|row rows IH] using rev_ind; [done|].
  rewrite create_menu_item_documents_snoc, length_app, seq_app, !fmap_app, IH.
  simpl. by rewrite create_menu_item_documents_length.
Qed.

Lemma create_restaurant_documents_Forall (P : Document → Prop) rows :
  (∀ documents row, row ∈ rows → P (restaurant_doc documents row)) →
  Forall P (create_restaurant_documents rows).
Proof.
  induction rows as [|row rows IH] using rev_ind; intros HP; [constructor|].
  rewrite create_restaurant_documents_snoc. apply Forall_app. split.
  - apply IH. intros documents row' Hrow. apply HP, elem_of_app. by left.
  - apply Forall_singleton, HP, elem_of_app. right. by left.
Qed.

Lemma create_menu_item_documents_Forall (P : Document → Prop) rows :
  (∀ documents row, row ∈ rows → P (menu_item_doc documents row)) →
  Forall P (create_menu_item_documents rows).
Proof.
  induction rows as [|row rows IH] using rev_ind; intros HP; [constructor|].
  rewrite create_menu_item_documents_snoc. apply Forall_app. split.
  - apply IH. intros documents row' Hrow. apply HP, elem_of_app. by left.
  - apply Forall_singleton, HP, elem_of_app. right. by left.
Qed.

(** The ids are all different: the number is printed in decimal without
    padding, and the two prefixes differ. *)
Lemma combined_ids_nodup n m :
  NoDup (((λ i : nat, "restaurant_" +:+ pretty i) <$> seq 0 n)
         ++ ((λ i : nat, "menu_item_" +:+ pretty i) <$> seq 0 m)).
Proof.
  apply NoDup_app. split; [|split].
  - apply NoDup_fmap_2; [|apply NoDup_seq].
    intros i j Hij. by apply (inj pretty), (inj (String.append "restaurant_")).
  - intros doc_id (i & -> & _)%list_elem_of_fmap (j & Hj & _)%list_elem_of_fmap.
    discriminate Hj.
  - apply NoDup_fmap_2; [|apply NoDup_seq].
    intros i j Hij. by apply (inj pretty), (inj (String.append "menu_item_")).
Qed.

(** ** The metadata table *)

Lemma metadata_by_id_snoc docs doc :
  metadata_by_id (docs ++ [doc])
  = <[d_id doc := d_metadata doc]> (metadata_by_id docs).
Proof. unfold metadata_by_id. by rewrite foldl_snoc. Qed.

Lemma metadata_by_id_is_Some docs doc_id :
  is_Some (metadata_by_id docs !! doc_id) ↔ doc_id ∈ d_id <$> docs.
Proof.
  induction docs as [|doc docs IH] using rev_ind.
  - unfold metadata_by_id. simpl. rewrite lookup_empty, elem_of_nil.
    split; [by intros [? ?] | done].
  - rewrite metadata_by_id_snoc, fmap_app, elem_of_app. simpl.
    rewrite list_elem_of_singleton.
    destruct (decide (d_id doc = doc_id)) as [<-|Hne].
    + rewrite lookup_insert_eq. split; [by right | by eexists].
    + rewrite lookup_insert_ne by done. rewrite IH.
      split; [by left | by intros [?|?]].
Qed.

(** With ids that are all different, the entry of an id is the metadata of
    the document of that id. *)
Lemma metadata_by_id_lookup docs doc :
  NoDup (d_id <$> docs) → doc ∈ docs →
  metadata_by_id docs !! d_id doc = Some (d_metadata doc).
Proof.
  induction docs as [|last docs IH] using rev_ind; intros Hnd Hin.
  - by apply elem_of_nil in Hin.
  - rewrite fmap_app in Hnd. apply NoDup_app in Hnd as (Hnd & Hfresh & _).
    rewrite metadata_by_id_snoc. apply elem_of_app in Hin as [Hin|Hin].
    + rewrite lookup_insert_ne; [by apply IH|].
      intros Heq. apply (Hfresh (d_id doc)); [by apply list_elem_of_fmap_2|].
      rewrite <- Heq. by left.
    + apply list_elem_of_singleton in Hin as ->. by rewrite lookup_insert_eq.
Qed.

(** ** The store that the builder saves *)

Lemma build_faiss_index_ok embeddings ix :
  build_faiss_index embeddings = Ok ix →
  Faiss.xb ix = embeddings ∧
  ∃ first, head embeddings = Some first ∧ Faiss.d ix = length first.
Proof.
  destruct embeddings as [|first rest]; [done|]. intros [= <-].
  split; [done|]. by exists first.
Qed.

(** A store saved from documents with different ids, each of which has the
    fields of its type, has the invariants that the retriever and the
    generator rely on. *)
Lemma saved_knowledge_base_invariants encode ix docs :
  Faiss.xb ix = create_document_embeddings encode docs →
  NoDup (d_id <$> docs) →
  Forall (λ doc, renderable {| r_id := d_id doc; r_score := 0;
                               r_content := d_content doc;
                               r_metadata := d_metadata doc;
                               r_type := d_type doc |}) docs →
  let self := saved_knowledge_base encode ix docs in
  Faiss.ntotal (index self) = length (documents self) ∧
  consistent self ∧ unique_ids self ∧ ¬ size_mismatch self ∧
  complete self ∧ identified self ∧ restaurants_named (documents self).
Proof.
  intros Hxb Hnd Hdocs self.
  assert (Faiss.ntotal (index self) = length docs) as Hn.
  { unfold Faiss.ntotal. simpl. rewrite Hxb. unfold create_document_embeddings.
    by rewrite length_fmap. }
  assert (complete self) as Hcomplete.
  { unfold complete. simpl. apply Forall_forall. intros doc Hdoc md.
    rewrite metadata_by_id_lookup by done. intros [= <-].
    rewrite Forall_forall in Hdocs. by apply Hdocs. }
  split; [done|]. split; [|split; [|split; [|split; [|split]]]].
  - split; [rewrite Hn; unfold self; simpl; by rewrite length_fmap|]. simpl.
    apply Forall_forall. intros doc_id Hid. by apply metadata_by_id_is_Some.
  - done.
  - intros Hm. by apply Hm.
  - done.
  - unfold identified. eapply Forall_impl; [exact Hcomplete|].
    intros doc Hdoc md Hmd.
    apply (renderable_identity {| r_id := d_id doc; r_score := 0;
                                  r_content := d_content doc; r_metadata := md;
                                  r_type := d_type doc |}).
    by apply Hdoc.
  - unfold restaurants_named. simpl. eapply Forall_impl; [exact Hdocs|].
    intros doc [Hr _] Hty. by apply Hr.
Qed.

Lemma restaurant_doc_renderable documents row :
  let doc := restaurant_doc documents row in
  renderable {| r_id := d_id doc; r_score := 0; r_content := d_content doc;
                r_metadata := d_metadata doc; r_type := d_type doc |}.
Proof.
  split; intros Hty; [|discriminate Hty].
  split; [|intros _; split]; by eexists.
Qed.

Lemma menu_item_doc_renderable documents row :
  let doc := menu_item_doc documents row in
  renderable {| r_id := d_id doc; r_score := 0; r_content := d_content doc;
                r_metadata := d_metadata doc; r_type := d_type doc |}.
Proof.
  split; intros Hty; [discriminate Hty|]. split; by eexists.
Qed.

Lemma build_knowledge_base_ok encode restaurants_df menu_items_df self :
  build_knowledge_base encode restaurants_df menu_items_df = Ok self →
  ∃ ix,
    self = saved_knowledge_base encode ix
             (create_restaurant_documents restaurants_df
                ++ create_menu_item_documents menu_items_df) ∧
    build_faiss_index
      (create_document_embeddings encode
         (create_restaurant_documents restaurants_df
            ++ create_menu_item_documents menu_items_df)) = Ok ix.
Proof.
  unfold build_knowledge_base, create_combined_documents. cbv zeta.
  intros (ix & Hix & [= <-])%bind_ok. by exists ix.
Qed.

Lemma built_ids restaurants_df menu_items_df :
  d_id <$> (create_restaurant_documents restaurants_df
              ++ create_menu_item_documents menu_items_df)
  = ((λ i : nat, "restaurant_" +:+ pretty i) <$> seq 0 (length restaurants_df))
    ++ ((λ i : nat, "menu_item_" +:+ pretty i) <$> seq 0 (length menu_items_df)).
Proof.
  by rewrite fmap_app, create_restaurant_documents_ids, create_menu_item_documents_ids.
Qed.

Lemma built_documents_renderable restaurants_df menu_items_df :
  Forall (λ doc, renderable {| r_id := d_id doc; r_score := 0;
                               r_content := d_content doc;
                               r_metadata := d_metadata doc;
                               r_type := d_type doc |})
    (create_restaurant_documents restaurants_df
       ++ create_menu_item_documents menu_items_df).
Proof.
  apply Forall_app. split.
  - apply create_restaurant_documents_Forall. intros documents row _.
    apply restaurant_doc_renderable.
  - apply create_menu_item_documents_Forall. intros documents row _.
    apply menu_item_doc_renderable.
Qed.

(** X18. The knowledge base that [build_knowledge_base] saves numbers the
    restaurants and then the menu items, each from zero, in the order of the
    rows; the ids are all different; and the saved tables are aligned: the
    vector of label [i] is the embedding of the content of the [i]-th
    document, the [i]-th id is its id, and the metadata table holds its
    metadata under that id. *)
Theorem build_knowledge_base_aligned encode restaurants_df menu_items_df self :
  build_knowledge_base encode restaurants_df menu_items_df = Ok self →
  document_ids self
    = ((λ i : nat, "restaurant_" +:+ pretty i) <$> seq 0 (length restaurants_df))
      ++ ((λ i : nat, "menu_item_" +:+ pretty i) <$> seq 0 (length menu_items_df)) ∧
  NoDup (document_ids self) ∧
  Faiss.ntotal (index self) = length restaurants_df + length menu_items_df ∧
  ∀ i doc, documents self !! i = Some doc →
    Faiss.xb (index self) !! i = Some (encode (d_content doc)) ∧
    document_ids self !! i = Some (d_id doc) ∧
    document_metadata self !! d_id doc = Some (d_metadata doc) ∧
    d_type doc = (if decide (i < length restaurants_df)
                  then "restaurant" else "menu_item").
Proof.
  intros (ix & -> & Hix)%build_knowledge_base_ok.
  apply build_faiss_index_ok in Hix as [Hxb _]. simpl.
  rewrite built_ids. split; [done|]. split; [apply combined_ids_nodup|].
  split.
  { unfold Faiss.ntotal. rewrite Hxb. unfold create_document_embeddings.
    by rewrite length_fmap, length_app, create_restaurant_documents_length,
      create_menu_item_documents_length. }
  intros i doc Hi. rewrite Hxb. unfold create_document_embeddings.
  rewrite list_lookup_fmap, Hi. split; [done|].
  rewrite <- built_ids, list_lookup_fmap, Hi. split; [done|]. split.
  - apply metadata_by_id_lookup; [|by eapply list_elem_of_lookup_2].
    rewrite built_ids. apply combined_ids_nodup.
  - destruct (decide (i < length restaurants_df)) as [Hlt|Hge].
    + rewrite lookup_app_l in Hi by by rewrite create_restaurant_documents_length.
      apply list_elem_of_lookup_2 in Hi. revert doc Hi. apply Forall_forall.
      by apply create_restaurant_documents_Forall.
    + rewrite lookup_app_r in Hi by (rewrite create_restaurant_documents_length; lia).
      apply list_elem_of_lookup_2 in Hi. revert doc Hi. apply Forall_forall.
      by apply create_menu_item_documents_Forall.
Qed.

Lemma build_knowledge_base_aligned_witness :
  ∃ self,
    build_knowledge_base Fixture.encode sample_restaurants_df sample_menu_items_df
      = Ok self ∧
    document_ids self = ["restaurant_0"; "menu_item_0"; "menu_item_1"] ∧
    NoDup (document_ids self) ∧
    Faiss.ntotal (index self) = 3.
Proof.
  destruct (build_knowledge_base Fixture.encode sample_restaurants_df
              sample_menu_items_df) as [self|e] eqn:Hself;
    [|vm_compute in Hself; discriminate Hself].
  exists self. split; [done|].
  destruct (build_knowledge_base_aligned _ _ _ _ Hself) as (Hids & Hnd & Hn & _).
  split; [exact Hids|]. split; [exact Hnd | exact Hn].
Defined.


(** X19. For an encoder whose vectors all have one dimension and tables that
    are not both empty, [build_knowledge_base] saves a knowledge base with
    the invariants that the retriever, the generator and the chatbot rely
    on: every label of the index has an id and every id metadata, the ids
    are all different, the index has as many vectors as there are documents
    and the dimension of the encoder, every document has the fields that are
    read without a guard, and every restaurant has a name. *)
Theorem build_knowledge_base_well_formed encode dim restaurants_df menu_items_df :
  (∀ text, length (encode text) = dim) →
  restaurants_df ≠ [] ∨ menu_items_df ≠ [] →
  ∃ self,
    build_knowledge_base encode restaurants_df menu_items_df = Ok self ∧
    consistent self ∧ unique_ids self ∧ same_dimension self ∧
    ¬ size_mismatch self ∧ complete self ∧ identified self ∧
    restaurants_named (documents self).
Proof.
  intros Hdim Hrows.
  set (docs := create_restaurant_documents restaurants_df
                 ++ create_menu_item_documents menu_items_df).
  destruct (build_faiss_index (create_document_embeddings encode docs))
    as [ix|e] eqn:Hix.
  - exists (saved_knowledge_base encode ix docs).
    pose proof (build_faiss_index_ok _ _ Hix) as (Hxb & first & Hfirst & Hd).
    destruct (saved_knowledge_base_invariants encode ix docs Hxb)
      as (_ & Hc & Hu & Hs & Hcomp & Hident & Hnamed).
    { unfold docs. rewrite built_ids. apply combined_ids_nodup. }
    { apply built_documents_renderable. }
    split.
    { unfold build_knowledge_base, create_combined_documents. cbv zeta.
      fold docs. by rewrite Hix. }
    split; [done|]. split; [done|]. split; [|done].
    intros query. unfold query_to_embedding. simpl. rewrite Hd, Hdim.
    unfold create_document_embeddings in Hfirst.
    destruct docs as [|doc docs']; [done|]. injection Hfirst as <-.
    by rewrite Hdim.
  - exfalso. unfold create_document_embeddings in Hix.
    assert (docs ≠ []) as Hne.
    { intros Hnil. apply (f_equal length) in Hnil. unfold docs in Hnil.
      rewrite length_app, create_restaurant_documents_length,
        create_menu_item_documents_length in Hnil. simpl in Hnil.
      destruct Hrows as [H|H]; apply H, length_zero_iff_nil; lia. }
    by destruct docs.
Qed.

Lemma build_knowledge_base_well_formed_witness :
  ∃ self,
    build_knowledge_base Fixture.encode sample_restaurants_df sample_menu_items_df
      = Ok self ∧
    consistent self ∧ unique_ids self ∧ same_dimension self ∧
    ¬ size_mismatch self ∧ complete self ∧ identified self ∧
    restaurants_named (documents self).
Proof.
  apply (build_knowledge_base_well_formed Fixture.encode 2
           sample_restaurants_df sample_menu_items_df).
  - intros text. reflexivity.
  - left. discriminate.
Defined.

(** * Turns that cannot fail *)

(** ** The outcome of a traced computation *)

Lemma outcome_bind {A B} (m : traced A) (f : A → traced B) :
  outcome (m ≫= f) = outcome m ≫= (λ a, outcome (f a)).
Proof. unfold mbind, traced_bind, result_bind. by destruct (outcome m). Qed.

Lemma outcome_emit {B} (e : event) (f : unit → traced B) :
  outcome (emit e ≫= f) = outcome (f tt).
Proof. done. Qed.

Lemma outcome_lift {A B} (r : result A) (f : A → traced B) :
  outcome (lift r ≫= f) = r ≫= (λ a, outcome (f a)).
Proof. by rewrite outcome_bind. Qed.

(** ** Retrievals on a complete store *)

Lemma retrieve_documents_renderable self query top_k res :
  complete self →
  retrieve_documents self query top_k = Ok res → Forall renderable res.
Proof.
  intros Hcomplete (found & Hfound & ->)%retrieve_documents_hits.
  apply Forall_forall. intros r Hr.
  destruct (retrieved_from_hit _ _ _ _ Hfound Hr) as ([d i] & _ & Hone).
  apply retrieve_one_some in Hone as (_ & _ & Hmd & doc & Hdoc & Hid & Hty).
  unfold complete in Hcomplete. rewrite Forall_forall in Hcomplete.
  rewrite <- Hid in Hmd. specialize (Hcomplete doc Hdoc _ Hmd).
  unfold renderable in *. simpl in Hcomplete. by rewrite <- Hty.
Qed.

Lemma complete_identified self : complete self → identified self.
Proof.
  unfold complete, identified. intros H. eapply Forall_impl; [exact H|].
  intros doc Hdoc md Hmd.
  apply (renderable_identity {| r_id := d_id doc; r_score := 0;
                                r_content := d_content doc; r_metadata := md;
                                r_type := d_type doc |}).
  by apply Hdoc.
Qed.

Lemma Forall_sublist {A} (P : A → Prop) (l k : list A) :
  l `sublist_of` k → Forall P k → Forall P l.
Proof.
  intros Hsub Hk. apply Forall_forall. intros x Hx.
  rewrite Forall_forall in Hk. apply Hk. by eapply elem_of_sublist.
Qed.

Lemma search_by_restaurant_returns self restaurant_name top_k :
  consistent self → complete self → same_dimension self → 0 < top_k →
  ∃ res, search_by_restaurant self restaurant_name top_k = Ok res ∧
         Forall renderable res.
Proof.
  intros Hc Hcomplete Hd Hk. unfold search_by_restaurant. cbv zeta.
  destruct (retrieve_documents_total self
              ("Information about restaurant " +:+ restaurant_name) top_k Hc Hd Hk)
    as [candidates Hcand].
  pose proof (retrieve_documents_renderable _ _ _ _ Hcomplete Hcand) as Hrender.
  destruct (filter_r_total (restaurant_filter restaurant_name) candidates)
    as [res Hres].
  { eapply Forall_impl; [exact Hrender|]. intros doc Hdoc.
    by apply restaurant_filter_total, renderable_identity. }
  exists res. rewrite Hcand. split; [exact Hres|].
  destruct (filter_r_ok _ _ _ Hres) as [_ Hsub]. by eapply Forall_sublist.
Qed.

Lemma search_menu_items_returns self query top_k :
  consistent self → complete self → same_dimension self → 0 < top_k →
  ∃ res, search_menu_items self query top_k = Ok res ∧ Forall renderable res.
Proof.
  intros Hc Hcomplete Hd Hk. unfold search_menu_items. cbv zeta.
  destruct (retrieve_documents_total self ("Menu item " +:+ query) (top_k * 2) Hc Hd)
    as [candidates Hcand]; [lia|].
  pose proof (retrieve_documents_renderable _ _ _ _ Hcomplete Hcand) as Hrender.
  rewrite Hcand. eexists. split; [done|].
  eapply Forall_sublist; [|exact Hrender].
  etrans; [apply sublist_take | apply sublist_filter].
Qed.

Lemma search_dietary_options_returns self preference top_k :
  consistent self → complete self → same_dimension self → 0 < top_k →
  ∃ res, search_dietary_options self preference top_k = Ok res ∧
         Forall renderable res.
Proof.
  intros Hc Hcomplete Hd Hk. unfold search_dietary_options. cbv zeta.
  destruct (retrieve_documents_total self
              ("Menu items with " +:+ preference +:+ " dietary preference")
              (top_k * 3) Hc Hd) as [candidates Hcand]; [lia|].
  pose proof (retrieve_documents_renderable _ _ _ _ Hcomplete Hcand) as Hrender.
  rewrite Hcand. eexists. split; [done|].
  eapply Forall_sublist; [|exact Hrender].
  etrans; [apply sublist_take | apply sublist_filter].
Qed.

Lemma retrieve_with_fallback_returns self query top_k :
  consistent self → complete self → same_dimension self → 0 < top_k →
  ∃ res, retrieve_with_fallback self query top_k = Ok res ∧
         Forall renderable res.
Proof.
  intros Hc Hcomplete Hd Hk. unfold retrieve_with_fallback.
  destruct (retrieve_documents_total self query top_k Hc Hd Hk) as [base Hbase].
  pose proof (retrieve_documents_renderable _ _ _ _ Hcomplete Hbase) as Hrender.
  rewrite Hbase. cbv beta iota zeta delta [mbind result_bind].
  destruct (Nat.ltb_spec (length base) top_k) as [Hlt|Hge];
    [destruct (key_terms query) as [|term terms]|].
  - eexists. split; [done|]. eapply Forall_sublist; [apply sublist_take|done].
  - destruct (retrieve_documents_total self (Py.join " " (term :: terms))
                (top_k - length base) Hc Hd) as [additional Hadd]; [lia|].
    pose proof (retrieve_documents_renderable _ _ _ _ Hcomplete Hadd) as Hrender'.
    rewrite Hadd. eexists. split; [done|].
    eapply Forall_sublist; [apply sublist_take|].
    apply Forall_app. split; [done|].
    eapply Forall_sublist; [apply sublist_filter|done].
  - eexists. split; [done|]. eapply Forall_sublist; [apply sublist_take|done].
Qed.

(** ** The generator on renderable documents *)

Lemma format_documents_total documents :
  Forall renderable documents →
  ∃ context, format_documents_for_prompt documents = Ok context.
Proof.
  intros Hdocs. unfold format_documents_for_prompt.
  destruct documents as [|doc documents]; [by eexists|].
  destruct (for_each_total context_block (sorted_docs (doc :: documents)))
    as [blocks Hblocks].
  - eapply Forall_impl; [|intros d; apply context_block_total].
    unfold sorted_docs. by rewrite sorted_perm.
  - rewrite Hblocks. by eexists.
Qed.

Lemma generate_response_returns self prompt :
  responsive self → ∃ text, outcome (generate_response self prompt) = Ok text.
Proof.
  intros Hg. unfold generate_response. rewrite outcome_emit, outcome_lift.
  destruct (Hg prompt) as [text ->]. by eexists.
Qed.

Lemma answer_query_returns self query documents chat_history :
  responsive self → Forall renderable documents →
  ∃ text, outcome (answer_query self query documents chat_history) = Ok text.
Proof.
  intros Hg Hdocs. unfold answer_query, create_prompt.
  rewrite outcome_emit, outcome_lift.
  destruct (format_documents_total _ Hdocs) as [context ->].
  cbv beta iota delta [mbind result_bind]. by apply generate_response_returns.
Qed.

Lemma handle_no_results_returns self query :
  responsive self → ∃ text, outcome (handle_no_results self query) = Ok text.
Proof.
  intros Hg. unfold handle_no_results. rewrite outcome_emit.
  by apply generate_response_returns.
Qed.

Lemma item_text_total item :
  r_type item = "menu_item" → renderable item → ∃ text, item_text item = Ok text.
Proof.
  intros Hty [_ Hm]. destruct (Hm Hty) as [_ [name Hname]].
  unfold item_text, getitem. rewrite Hname. by eexists.
Qed.

Lemma comparison_block_total restaurant_name docs :
  Forall renderable docs →
  ∃ block, comparison_block (restaurant_name, docs) = Ok block.
Proof.
  intros Hdocs. unfold comparison_block.
  destruct (filter (λ doc, r_type doc = "menu_item") docs) as [|item items] eqn:Hitems;
    [by eexists|].
  destruct (for_each_total item_text (take 5 (item :: items))) as [lines Hlines].
  - apply Forall_forall. intros it Hit.
    assert (it ∈ filter (λ doc, r_type doc = "menu_item") docs) as Hin.
    { rewrite Hitems. eapply elem_of_sublist; [exact Hit | apply sublist_take]. }
    apply list_elem_of_filter in Hin as [Hty Hin].
    apply item_text_total; [done|]. rewrite Forall_forall in Hdocs. by apply Hdocs.
  - rewrite Hlines. by eexists.
Qed.

Lemma generate_comparison_returns self query restaurant_docs :
  responsive self →
  Forall (λ entry, Forall renderable entry.2) restaurant_docs →
  ∃ text, outcome (generate_comparison self query restaurant_docs) = Ok text.
Proof.
  intros Hg Hdocs. unfold generate_comparison, comparison_prompt.
  rewrite outcome_emit, outcome_lift.
  destruct (for_each_total comparison_block restaurant_docs) as [blocks ->].
  - eapply Forall_impl; [exact Hdocs|]. intros [name docs] Hentry.
    by apply comparison_block_total.
  - cbv beta iota delta [mbind result_bind]. by apply generate_response_returns.
Qed.

Lemma collect_restaurant_docs_returns r restaurants acc :
  consistent r → complete r → same_dimension r →
  Forall (λ entry, Forall renderable entry.2) acc →
  ∃ restaurant_docs,
    outcome (collect_restaurant_docs r restaurants acc) = Ok restaurant_docs ∧
    Forall (λ entry, Forall renderable entry.2) restaurant_docs.
Proof.
  intros Hc Hcomplete Hd. revert acc.
  induction restaurants as [|name rest IH]; intros acc Hacc.
  - by exists acc.
  - cbn [collect_restaurant_docs]. rewrite outcome_emit, outcome_lift.
    destruct (search_by_restaurant_returns r name 10 Hc Hcomplete Hd)
      as (docs & -> & Hdocs); [lia|].
    cbv beta iota delta [mbind result_bind]. apply IH.
    by apply dict_set_entries.
Qed.

(** ** The whole turn *)

Lemma respond_returns self query :
  consistent (retriever self) → complete (retriever self) →
  same_dimension (retriever self) →
  restaurants_named (documents (retriever self)) →
  responsive (response_generator self) →
  ∃ response, outcome (respond self query) = Ok response.
Proof.
  intros Hc Hcomplete Hd Hnamed Hg. unfold respond. cbv zeta.
  rewrite outcome_lift.
  destruct (detect_intent_returns self query Hnamed) as [intent ->].
  cbv beta iota delta [mbind result_bind].
  destruct intent as [restaurants|preference|q|restaurant|q].
  - rewrite outcome_bind.
    destruct (collect_restaurant_docs_returns (retriever self) restaurants []
                Hc Hcomplete Hd) as (restaurant_docs & -> & Hdocs); [constructor|].
    cbv beta iota delta [mbind result_bind].
    by apply generate_comparison_returns.
  - rewrite outcome_emit, outcome_lift.
    destruct (search_dietary_options_returns (retriever self) preference 10
                Hc Hcomplete Hd) as (documents & -> & Hdocs); [lia|].
    cbv beta iota delta [mbind result_bind].
    destruct documents; [by eexists | by apply answer_query_returns].
  - rewrite outcome_emit, outcome_lift.
    destruct (search_menu_items_returns (retriever self) query 10
                Hc Hcomplete Hd) as (documents & -> & Hdocs); [lia|].
    cbv beta iota delta [mbind result_bind].
    destruct documents; [|by apply answer_query_returns].
    rewrite outcome_emit, outcome_lift.
    destruct (retrieve_with_fallback_returns (retriever self) query 5
                Hc Hcomplete Hd) as (documents & -> & Hdocs'); [lia|].
    cbv beta iota delta [mbind result_bind]. by apply answer_query_returns.
  - rewrite outcome_emit, outcome_lift.
    destruct (search_by_restaurant_returns (retriever self) restaurant 10
                Hc Hcomplete Hd) as (documents & -> & Hdocs); [lia|].
    cbv beta iota delta [mbind result_bind].
    destruct documents; [by eexists | by apply answer_query_returns].
  - rewrite outcome_emit, outcome_lift.
    destruct (retrieve_with_fallback_returns (retriever self) query 5
                Hc Hcomplete Hd) as (documents & -> & Hdocs); [lia|].
    cbv beta iota delta [mbind result_bind].
    destruct documents;
      [by apply handle_no_results_returns | by apply answer_query_returns].
Qed.

(** X20. On a knowledge base whose tables are consistent, whose documents
    have the fields that are read without a guard, whose restaurants have a
    name and whose encoder has the dimension of the index, and with a
    text-generation pipeline that answers every prompt, [answer] never
    raises: whatever the query and the history, the turn ends in a response,
    and the history grows by the user message and that response. *)
Theorem answer_never_raises self query :
  consistent (retriever self) → complete (retriever self) →
  same_dimension (retriever self) →
  restaurants_named (documents (retriever self)) →
  responsive (response_generator self) →
  ∃ response,
    outcome (answer self query).2 = Ok response ∧
    chat_history (answer self query).1
    = chat_history self ++ [{| role := "user"; content := query |};
                            {| role := "assistant"; content := response |}].
Proof.
  intros Hc Hcomplete Hd Hnamed Hg.
  destruct (respond_returns (add_message_to_history self "user" query) query
              Hc Hcomplete Hd Hnamed Hg) as [response Hresponse].
  exists response. rewrite answer_history, answer_turn.
  unfold exchange. by rewrite Hresponse.
Qed.

(** ** The knowledge base of the examples *)

Lemma fixture_metadata doc :
  doc ∈ Fixture.all_docs →
  document_metadata Fixture.kb !! d_id doc = Some (d_metadata doc).
Proof.
  intros Hdoc.
  repeat (apply elem_of_cons in Hdoc as [->|Hdoc]);
    [vm_compute; reflexivity..|by apply elem_of_nil in Hdoc].
Qed.

Lemma fixture_complete : complete Fixture.kb.
Proof.
  apply Forall_forall. intros doc Hdoc md.
  rewrite (fixture_metadata doc Hdoc). intros [= <-].
  repeat (apply elem_of_cons in Hdoc as [->|Hdoc]);
    [..|by apply elem_of_nil in Hdoc];
    (split; intros Hty; [|split]); try discriminate Hty; vm_compute; repeat split; eauto.
Qed.

Lemma fixture_named : restaurants_named (documents Fixture.kb).
Proof.
  repeat apply Forall_cons_2; [..|apply Forall_nil_2]; intros _; vm_compute; eauto.
Qed.

Lemma answer_never_raises_witness :
  ∃ response,
    outcome (answer Fixture.bot "Where is Taco Haven located?").2 = Ok response ∧
    chat_history (answer Fixture.bot "Where is Taco Haven located?").1
    = chat_history Fixture.bot
        ++ [{| role := "user"; content := "Where is Taco Haven located?" |};
            {| role := "assistant"; content := response |}].
Proof.
  apply (answer_never_raises Fixture.bot "Where is Taco Haven located?").
  - unfold consistent. compute_done.
  - apply fixture_complete.
  - intros query. reflexivity.
  - apply fixture_named.
  - intros prompt. by eexists.
Defined.
